(** * UploadMaterialsJob: the job that uploads materials to the Digital Factory

    A shallow embedding of [cura/PrinterOutput/UploadMaterialsJob.py].

    The job is a chain of callbacks driven by the HTTP request manager:
    [run] asks for an upload slot, [onUploadRequestCompleted] uploads the
    archive, [onUploadCompleted] sends one confirmation per printer and
    [onUploadConfirmed] is written to collect the answers.  The callback
    registered for the confirmations is a [functools.partialmethod] object,
    though, which the request manager cannot call ([call]); the properties
    of the job are stated for the job as it runs, and [onUploadConfirmed] is
    also described on its own.  Every method is a computation
    in a small state-and-exception monad over a [World] that holds the job
    object, the files on disk, the requests in flight and everything the job
    has emitted so far.

    Python floats are modelled by exact rationals ([Q]); progress values are
    compared with [==]. *)

From Stdlib Require Import QArith.
From stdpp Require Import gmap strings list fin_maps relations sorting.

Local Open Scope string_scope.
#[local] Set Warnings "-clear-no-such-hyp".

(** ** Data *)

(** [class Result(enum.IntEnum)], with the member names as the source
    spells them. *)
Module Result.

Inductive t : Set := SUCCCESS | FAILED.

Definition value (r : t) : Z :=
  match r with SUCCCESS => 0 | FAILED => 1 end.

(** Attribute access on the enum class, [Result.<name>]: a name that is
    not a member has no value (Python raises [AttributeError]). *)
Definition getattr (name : string) : option t :=
  if decide (name = "SUCCCESS") then Some SUCCCESS
  else if decide (name = "FAILED") then Some FAILED
  else None.

End Result.

#[global] Instance Result_eq_dec : EqDecision Result.t.
Proof. solve_decision. Defined.

(** The exceptions the modelled statements can raise. *)
Inductive Exception : Set :=
| AttributeError (name : string)
| ZeroDivisionError
| TypeError
| FileNotFoundError (path : string).

(** One entry of [findContainerStacksMetadata]: the two metadata fields the
    job reads (the query asks for both with ["*"], so both are present). *)
Record ContainerStack : Set := {
  um_cloud_cluster_id : string;
  host_guid : string
}.

(** What the job hands to the request manager as callbacks: bound methods of
    the job and, for the confirmations, the object
    [functools.partialmethod(self.onUploadConfirmed, printer_id)]
    ([cb_onUploadConfirmed printer_id]). *)
Inductive Callback : Set :=
| cb_onUploadRequestCompleted
| cb_onUploadCompleted
| cb_onError
| cb_onUploadConfirmed (printer_id : string).

Inductive Method : Set := PUT | GET.

(** Request bodies: the JSON metadata of the upload request (the
    ["data"] object of [request_metadata]) and the raw archive. *)
Inductive Body : Set :=
| JsonBody (file_size : nat) (file_name content_type origin : string)
| FileBody (file_data : list Byte.byte)
| NoBody.

Record Request : Set := {
  method : Method;
  url : string;
  data : Body;
  callback : Callback;
  error_callback : Callback
}.

(** A [QNetworkReply], reduced to what [HttpRequestManager.readJSON] makes
    of it: the decoded JSON object, or [None] when the body does not parse. *)
Record QNetworkReply : Type := {
  readJSON : option (gmap string string)
}.

Definition NetworkError : Set := nat.

(** How the transport resolves a request: it calls [callback] when the
    request finished, [error_callback] with the error otherwise. *)
Inductive Resolution : Type :=
| Finished (reply : QNetworkReply)
| Errored (reply : QNetworkReply) (error : NetworkError).

(** What listeners of the job's signals observe: the arguments of each
    [emit], with the status table as it is at that moment. *)
Inductive Emission : Type :=
| uploadProgressChanged (progress : Q) (status : gmap string string)
| uploadCompleted (result : option Result.t) (error : option string).

(** The fields of the job object ([_result] and [_error] are those of the
    [Job] base class, both [None] until set). *)
Record Job : Type := {
  _printer_metadata : list ContainerStack;
  _printer_sync_status : gmap string string;
  _archive_filename : option string;
  _archive_remote_id : option string;
  _result : option Result.t;
  _error : option string
}.

Record World : Type := {
  job : Job;
  files : gmap string (list Byte.byte);   (* the files that exist on disk *)
  pending : list Request;                 (* requests in flight *)
  sent : list Request;                    (* every request issued, oldest first *)
  emitted : list Emission;                (* every signal emitted, oldest first *)
  logged : list string;                   (* Logger.error messages *)
  uncaught : list Exception               (* exceptions that left a callback *)
}.

(** ** The monad of the methods *)

Inductive Outcome (A : Type) : Type :=
| Return (a : A)
| Raise (e : Exception).
Arguments Return {A} a.
Arguments Raise {A} e.

Definition M (A : Type) : Type := World → Outcome A * World.

#[global] Instance M_ret : MRet M := λ A a w, (Return a, w).

#[global] Instance M_bind : MBind M := λ A B f m w,
  match m w with
  | (Return a, w') => f a w'
  | (Raise e, w') => (Raise e, w')
  end.

Definition raise {A} (e : Exception) : M A := λ w, (Raise e, w).

Definition gets {A} (f : Job → A) : M A := λ w, (Return (f (job w)), w).

Definition set_job (f : Job → Job) : M unit := λ w,
  (Return tt,
   {| job := f (job w); files := files w; pending := pending w; sent := sent w;
      emitted := emitted w; logged := logged w; uncaught := uncaught w |}).

Definition set_files (f : gmap string (list Byte.byte) → gmap string (list Byte.byte)) : M unit := λ w,
  (Return tt,
   {| job := job w; files := f (files w); pending := pending w; sent := sent w;
      emitted := emitted w; logged := logged w; uncaught := uncaught w |}).

Definition get_files : M (gmap string (list Byte.byte)) := λ w, (Return (files w), w).

Definition emit (e : Emission) : M unit := λ w,
  (Return tt,
   {| job := job w; files := files w; pending := pending w; sent := sent w;
      emitted := emitted w ++ [e]; logged := logged w; uncaught := uncaught w |}).

Definition Logger_error (msg : string) : M unit := λ w,
  (Return tt,
   {| job := job w; files := files w; pending := pending w; sent := sent w;
      emitted := emitted w; logged := logged w ++ [msg]; uncaught := uncaught w |}).

(** [HttpRequestManager.put] / [.get]: the request is queued and resolved
    later. *)
Definition http_request (r : Request) : M unit := λ w,
  (Return tt,
   {| job := job w; files := files w; pending := pending w ++ [r]; sent := sent w ++ [r];
      emitted := emitted w; logged := logged w; uncaught := uncaught w |}).

Fixpoint for_each {A} (l : list A) (body : A → M unit) : M unit :=
  match l with
  | [] => mret tt
  | x :: l' => body x;; for_each l' body
  end.

(** ** Field updates of the job object *)

Definition with_printer_metadata (v : list ContainerStack) (j : Job) : Job :=
  {| _printer_metadata := v; _printer_sync_status := _printer_sync_status j;
     _archive_filename := _archive_filename j; _archive_remote_id := _archive_remote_id j;
     _result := _result j; _error := _error j |}.

Definition with_printer_sync_status (f : gmap string string → gmap string string) (j : Job) : Job :=
  {| _printer_metadata := _printer_metadata j; _printer_sync_status := f (_printer_sync_status j);
     _archive_filename := _archive_filename j; _archive_remote_id := _archive_remote_id j;
     _result := _result j; _error := _error j |}.

Definition with_archive_filename (v : option string) (j : Job) : Job :=
  {| _printer_metadata := _printer_metadata j; _printer_sync_status := _printer_sync_status j;
     _archive_filename := v; _archive_remote_id := _archive_remote_id j;
     _result := _result j; _error := _error j |}.

Definition with_archive_remote_id (v : option string) (j : Job) : Job :=
  {| _printer_metadata := _printer_metadata j; _printer_sync_status := _printer_sync_status j;
     _archive_filename := _archive_filename j; _archive_remote_id := v;
     _result := _result j; _error := _error j |}.

Definition with_result (v : option Result.t) (j : Job) : Job :=
  {| _printer_metadata := _printer_metadata j; _printer_sync_status := _printer_sync_status j;
     _archive_filename := _archive_filename j; _archive_remote_id := _archive_remote_id j;
     _result := v; _error := _error j |}.

Definition with_error (v : option string) (j : Job) : Job :=
  {| _printer_metadata := _printer_metadata j; _printer_sync_status := _printer_sync_status j;
     _archive_filename := _archive_filename j; _archive_remote_id := _archive_remote_id j;
     _result := _result j; _error := v |}.

(** [Job.setResult], [Job.setError], [Job.getResult], [Job.getError]. *)
Definition setResult (r : Result.t) : M unit := set_job (with_result (Some r)).
Definition setError (e : string) : M unit := set_job (with_error (Some e)).
Definition getResult : M (option Result.t) := gets _result.
Definition getError : M (option string) := gets _error.

(** [self.Result.<name>] *)
Definition Result_attr (name : string) : M Result.t :=
  match Result.getattr name with
  | Some r => mret r
  | None => raise (AttributeError name)
  end.

(** [dict.values()] *)
Definition values (d : gmap string string) : list string := (map_to_list d).*2.

(** ** Files *)

(** [tempfile.NamedTemporaryFile("wb", delete = ...)]: the file is created
    empty under a name the system picks; closing it removes it again when
    [delete] is set. *)
Record TemporaryFile : Set := { name : string; delete_on_close : bool }.

Definition NamedTemporaryFile (fresh : string) (delete : bool) : M TemporaryFile :=
  set_files (<[fresh := []]>);;
  mret {| name := fresh; delete_on_close := delete |}.

Definition close (f : TemporaryFile) : M unit :=
  if delete_on_close f then set_files (base.delete (name f)) else mret tt.

(** [os.path.getsize] *)
Definition getsize (path : string) : M nat :=
  fs ← get_files;
  match fs !! path with
  | Some content => mret (length content)
  | None => raise (FileNotFoundError path)
  end.

(** [open(path, "rb").read()] *)
Definition read_file (path : option string) : M (list Byte.byte) :=
  match path with
  | None => raise TypeError
  | Some p =>
      fs ← get_files;
      match fs !! p with
      | Some content => mret content
      | None => raise (FileNotFoundError p)
      end
  end.

(** ** The methods of [UploadMaterialsJob] *)

Section UploadMaterialsJob.

(** [UltimakerCloudConstants.CuraCloudAPIRoot] *)
Variable CuraCloudAPIRoot : string.

Definition UPLOAD_REQUEST_URL : string :=
  CuraCloudAPIRoot +:+ "/connect/v1/materials/upload".

(** [UPLOAD_CONFIRM_URL.format(cluster_id = ..., cluster_printer_id = ...)] *)
Definition UPLOAD_CONFIRM_URL (cluster_id cluster_printer_id : string) : string :=
  CuraCloudAPIRoot +:+ "/connect/v1/clusters/" +:+ cluster_id +:+ "/printers/"
    +:+ cluster_printer_id +:+ "/action/confirm_material_upload".

Definition getPrinterSyncStatus : M (gmap string string) := gets _printer_sync_status.

Definition _onProcessProgressChanged (progress : Q) : M unit :=
  status ← getPrinterSyncStatus;
  emit (uploadProgressChanged (progress * (8 # 10)) status).

(** Modelled from the spec: [CloudMaterialSync.exportAll], the archive
    producer.  Given a destination it writes the package there and reports
    fractional progress during the write; each report goes through the
    [processProgressChanged] signal, which [__init__] connects to
    [_onProcessProgressChanged].  What it reports and what it writes are
    inputs of the model. *)
Definition exportAll (destination : string) (reports : list Q) (archive : list Byte.byte) : M unit :=
  for_each reports _onProcessProgressChanged;;
  set_files (<[destination := archive]>).

Definition failed (error : string) : M unit :=
  setResult Result.FAILED;;
  setError error;;
  set_job (with_printer_sync_status (fmap (λ _, "failed")));;
  status ← getPrinterSyncStatus;
  emit (uploadProgressChanged 1 status);;
  result ← getResult;
  err ← getError;
  emit (uploadCompleted result err).

Definition run (stacks : list ContainerStack) (fresh : string)
    (reports : list Q) (archive : list Byte.byte) : M unit :=
  set_job (with_printer_metadata stacks);;
  printers ← gets _printer_metadata;
  for_each printers (λ printer,
    set_job (with_printer_sync_status (<[host_guid printer := "uploading"]>)));;
  archive_file ← NamedTemporaryFile fresh false;
  close archive_file;;
  set_job (with_archive_filename (Some (name archive_file)));;
  exportAll (name archive_file) reports archive;;
  file_size ← getsize (name archive_file);
  http_request {| method := PUT; url := UPLOAD_REQUEST_URL;
                  data := JsonBody file_size "cura.umm" "application/zip" "cura";
                  callback := cb_onUploadRequestCompleted;
                  error_callback := cb_onError |}.

Definition onUploadRequestCompleted (reply : QNetworkReply) (error : option NetworkError) : M unit :=
  match readJSON reply with
  | None =>
      Logger_error "Invalid response to material upload request. Could not parse JSON data.";;
      failed "The response from Digital Factory appears to be corrupted."
  | Some response_data =>
      match response_data !! "upload_url" with
      | None =>
          Logger_error "Invalid response to material upload request: Missing 'upload_url' field to upload archive to.";;
          failed "The response from Digital Factory is missing important information."
      | Some upload_url =>
          match response_data !! "material_profile_id" with
          | None =>
              Logger_error "Invalid response to material upload request: Missing 'material_profile_id' to communicate about the materials with the server.";;
              failed "The response from Digital Factory is missing important information."
          | Some material_profile_id =>
              set_job (with_archive_remote_id (Some material_profile_id));;
              filename ← gets _archive_filename;
              file_data ← read_file filename;
              http_request {| method := PUT; url := upload_url;
                              data := FileBody file_data;
                              callback := cb_onUploadCompleted;
                              error_callback := cb_onError |}
          end
      end
  end.

Definition onUploadCompleted (reply : QNetworkReply) (error : option NetworkError) : M unit :=
  printers ← gets _printer_metadata;
  for_each printers (λ container_stack,
    let cluster_id := um_cloud_cluster_id container_stack in
    let printer_id := host_guid container_stack in
    http_request {| method := GET; url := UPLOAD_CONFIRM_URL cluster_id printer_id;
                    data := NoBody;
                    callback := cb_onUploadConfirmed printer_id;
                    error_callback := cb_onUploadConfirmed printer_id |}).

Definition onUploadConfirmed (printer_id : string) (reply : QNetworkReply)
    (error : option NetworkError) : M unit :=
  match error with
  | Some _ =>
      Logger_error "Failed to confirm uploading material archive to printer";;
      set_job (with_printer_sync_status (<[printer_id := "failed"]>))
  | None =>
      set_job (with_printer_sync_status (<[printer_id := "success"]>))
  end;;
  status ← getPrinterSyncStatus;
  let still_uploading := length (filter (λ val, val = "uploading") (values status)) in
  (if decide (size status = 0) then raise ZeroDivisionError
   else emit (uploadProgressChanged
                ((8 # 10) + inject_Z (Z.of_nat (size status) - Z.of_nat still_uploading)
                            / inject_Z (Z.of_nat (size status)))
                status));;
  if decide (still_uploading = 0) then
    (if decide ("failed" ∈ values status) then
       setResult Result.FAILED;;
       setError "Failed to connect to Digital Factory to sync materials with some of the printers."
     else
       r ← Result_attr "SUCCESS";
       setResult r);;
    result ← getResult;
    err ← getError;
    emit (uploadCompleted result err)
  else mret tt.

Definition onError (reply : QNetworkReply) (error : option NetworkError) : M unit :=
  Logger_error "Failed to upload material archive";;
  failed "Failed to connect to Digital Factory.".

(** ** The event loop *)

(** The request manager calls a callback.  A bound method runs.  A
    [functools.partialmethod] object is a descriptor without [__call__]:
    calling it raises [TypeError], and [onUploadConfirmed] does not run. *)
Definition call (cb : Callback) (reply : QNetworkReply) (error : option NetworkError) : M unit :=
  match cb with
  | cb_onUploadRequestCompleted => onUploadRequestCompleted reply error
  | cb_onUploadCompleted => onUploadCompleted reply error
  | cb_onError => onError reply error
  | cb_onUploadConfirmed printer_id => raise TypeError
  end.

Definition resolve (r : Request) (res : Resolution) : M unit :=
  match res with
  | Finished reply => call (callback r) reply None
  | Errored reply error => call (error_callback r) reply (Some error)
  end.

(** Run a method to its end; an exception that leaves it is recorded and
    the state it had reached stays. *)
Definition exec (m : M unit) (w : World) : World :=
  match m w with
  | (Return _, w') => w'
  | (Raise e, w') =>
      {| job := job w'; files := files w'; pending := pending w'; sent := sent w';
         emitted := emitted w'; logged := logged w'; uncaught := uncaught w' ++ [e] |}
  end.

Definition take_pending (i : nat) (w : World) : World :=
  {| job := job w; files := files w; pending := base.delete i (pending w); sent := sent w;
     emitted := emitted w; logged := logged w; uncaught := uncaught w |}.

(** The transport resolves the [i]-th request in flight. *)
Definition deliver (i : nat) (res : Resolution) (w : World) : option World :=
  r ← pending w !! i;
  Some (exec (resolve r res) (take_pending i w)).

Fixpoint deliver_all (script : list (nat * Resolution)) (w : World) : option World :=
  match script with
  | [] => Some w
  | (i, res) :: script' => w' ← deliver i res w; deliver_all script' w'
  end.

Inductive step : World → World → Prop :=
| step_deliver w i res w' : deliver i res w = Some w' → step w w'.

(** [__init__] *)
Definition new_job : Job :=
  {| _printer_metadata := []; _printer_sync_status := ∅;
     _archive_filename := None; _archive_remote_id := None;
     _result := None; _error := None |}.

Definition initial : World :=
  {| job := new_job; files := ∅; pending := []; sent := []; emitted := [];
     logged := []; uncaught := [] |}.

(** The job is started: [run] on a fresh job. *)
Definition start (stacks : list ContainerStack) (fresh : string)
    (reports : list Q) (archive : list Byte.byte) : World :=
  exec (run stacks fresh reports archive) initial.

(** The states a started job can be in. *)
Definition reachable (stacks : list ContainerStack) (fresh : string)
    (reports : list Q) (archive : list Byte.byte) (w : World) : Prop :=
  rtc step (start stacks fresh reports archive) w.

End UploadMaterialsJob.

(** ** Observations on a world *)

Definition progress_of (e : Emission) : option Q :=
  match e with
  | uploadProgressChanged progress _ => Some progress
  | uploadCompleted _ _ => None
  end.

(** The progress values emitted so far, oldest first. *)
Definition progress_values (w : World) : list Q := omap progress_of (emitted w).

Definition is_completion (e : Emission) : bool :=
  match e with
  | uploadCompleted _ _ => true
  | uploadProgressChanged _ _ => false
  end.

(** The completion notifications emitted so far. *)
Definition completions (w : World) : list Emission :=
  List.filter is_completion (emitted w).

Definition is_confirmation (r : Request) : bool :=
  match callback r with
  | cb_onUploadConfirmed _ => true
  | _ => false
  end.

(** The confirmation requests issued so far. *)
Definition confirmations (w : World) : list Request :=
  List.filter is_confirmation (sent w).

Definition status_of (w : World) : gmap string string := _printer_sync_status (job w).

#[global] Instance Callback_eq_dec : EqDecision Callback.
Proof. solve_decision. Defined.

(** The upload-request response cannot be used: it does not parse, or it
    lacks [upload_url] or [material_profile_id]. *)
Definition malformed (reply : QNetworkReply) : bool :=
  match readJSON reply with
  | None => true
  | Some response_data =>
      bool_decide (response_data !! "upload_url" = None)
      || bool_decide (response_data !! "material_profile_id" = None)
  end.

(** A fatal failure of phase 1 or 2: the transport reports an error for a
    request whose error callback is [onError], or the upload-request
    response is malformed. *)
Definition fatal (r : Request) (res : Resolution) : bool :=
  match res with
  | Errored _ _ => bool_decide (error_callback r = cb_onError)
  | Finished reply =>
      bool_decide (callback r = cb_onUploadRequestCompleted) && malformed reply
  end.

(** The table [run] builds before any request is sent. *)
Definition initial_status (stacks : list ContainerStack) : gmap string string :=
  foldl (λ d printer, <[host_guid printer := "uploading"]> d) ∅ stacks.

Definition upload_request (root : string) (file_size : nat) : Request :=
  {| method := PUT; url := UPLOAD_REQUEST_URL root;
     data := JsonBody file_size "cura.umm" "application/zip" "cura";
     callback := cb_onUploadRequestCompleted; error_callback := cb_onError |}.

Definition confirm_request (root : string) (stack : ContainerStack) : Request :=
  {| method := GET;
     url := UPLOAD_CONFIRM_URL root (um_cloud_cluster_id stack) (host_guid stack);
     data := NoBody;
     callback := cb_onUploadConfirmed (host_guid stack);
     error_callback := cb_onUploadConfirmed (host_guid stack) |}.

(** ** Vocabulary of the statements *)

(** What [onUploadConfirmed] writes into the table, and what it reports. *)
Definition confirmed_status (printer_id : string) (error : option NetworkError)
    (d : gmap string string) : gmap string string :=
  <[printer_id := match error with Some _ => "failed" | None => "success" end]> d.

Definition still_uploading (d : gmap string string) : nat :=
  length (filter (λ val, val = "uploading") (values d)).

Definition confirm_progress (d : gmap string string) : Q :=
  (8 # 10) + inject_Z (Z.of_nat (size d) - Z.of_nat (still_uploading d))
             / inject_Z (Z.of_nat (size d)).

Definition confirm_log (error : option NetworkError) : list string :=
  match error with
  | Some _ => ["Failed to confirm uploading material archive to printer"]
  | None => []
  end.

(** The message a fatal failure leaves in the job. *)
Definition fatal_error (res : Resolution) : string :=
  match res with
  | Errored _ _ => "Failed to connect to Digital Factory."
  | Finished reply =>
      match readJSON reply with
      | None => "The response from Digital Factory appears to be corrupted."
      | Some _ => "The response from Digital Factory is missing important information."
      end
  end.

Definition aborted (error : string) (lg : string) (w : World) : World :=
  {| job := with_printer_sync_status (fmap (λ _, "failed"))
              (with_error (Some error) (with_result (Some Result.FAILED) (job w)));
     files := files w; pending := pending w; sent := sent w;
     emitted := emitted w ++ [uploadProgressChanged 1 ((λ _, "failed") <$> status_of w);
                              uploadCompleted (Some Result.FAILED) (Some error)];
     logged := logged w ++ [lg]; uncaught := uncaught w |}.

Definition upload_put (upload_url : string) (file_data : list Byte.byte) : Request :=
  {| method := PUT; url := upload_url; data := FileBody file_data;
     callback := cb_onUploadCompleted; error_callback := cb_onError |}.

(** The three ways [onUploadConfirmed] can end.  In all of them the table is
    updated and the progress reported ([reported]); on the last answer the
    job is either finalized as failed ([completed_failed]) or the lookup of
    [Result.SUCCESS] raises ([crashed]). *)
Definition reported (printer_id : string) (error : option NetworkError) (w : World) : World :=
  {| job := with_printer_sync_status (confirmed_status printer_id error) (job w);
     files := files w; pending := pending w; sent := sent w;
     emitted := emitted w ++
       [uploadProgressChanged (confirm_progress (confirmed_status printer_id error (status_of w)))
          (confirmed_status printer_id error (status_of w))];
     logged := logged w ++ confirm_log error; uncaught := uncaught w |}.

Definition partial_failure : string :=
  "Failed to connect to Digital Factory to sync materials with some of the printers.".

Definition completed_failed (w : World) : World :=
  {| job := with_error (Some partial_failure) (with_result (Some Result.FAILED) (job w));
     files := files w; pending := pending w; sent := sent w;
     emitted := emitted w ++ [uploadCompleted (Some Result.FAILED) (Some partial_failure)];
     logged := logged w; uncaught := uncaught w |}.

Definition crashed (e : Exception) (w : World) : World :=
  {| job := job w; files := files w; pending := pending w; sent := sent w;
     emitted := emitted w; logged := logged w; uncaught := uncaught w ++ [e] |}.

Inductive confirmed_case (printer_id : string) (error : option NetworkError) (w : World)
  : World → Prop :=
| confirmed_pending :
    still_uploading (confirmed_status printer_id error (status_of w)) ≠ 0 →
    confirmed_case printer_id error w (reported printer_id error w)
| confirmed_last_failed :
    still_uploading (confirmed_status printer_id error (status_of w)) = 0 →
    "failed" ∈ values (confirmed_status printer_id error (status_of w)) →
    confirmed_case printer_id error w (completed_failed (reported printer_id error w))
| confirmed_last_success :
    still_uploading (confirmed_status printer_id error (status_of w)) = 0 →
    "failed" ∉ values (confirmed_status printer_id error (status_of w)) →
    confirmed_case printer_id error w
      (crashed (AttributeError "SUCCESS") (reported printer_id error w)).

(** The phases of a started job, told apart by what is in flight. *)
Inductive Phase : Set := Requesting | Uploading | Confirming | Aborted.

(** Nothing has been decided yet. *)
Record quiet (w : World) : Prop := {
  quiet_completions : completions w = [];
  quiet_confirmations : confirmations w = [];
  quiet_result : _result (job w) = None;
  quiet_error : _error (job w) = None;
  quiet_uncaught : uncaught w = [];
  quiet_status : ∀ k v, status_of w !! k = Some v → v = "uploading"
}.

(** As long as some printer is marked ["uploading"] the job has decided
    nothing. *)
Definition undecided (w : World) : Prop :=
  (∃ k, status_of w !! k = Some "uploading") →
  _result (job w) = None ∧ _error (job w) = None ∧ completions w = [].

Definition in_phase (root : string) (stacks : list ContainerStack) (p : Phase) (w : World) : Prop :=
  match p with
  | Requesting =>
      (∃ r, pending w = [r] ∧ callback r = cb_onUploadRequestCompleted
            ∧ error_callback r = cb_onError) ∧ quiet w
  | Uploading =>
      (∃ r, pending w = [r] ∧ callback r = cb_onUploadCompleted
            ∧ error_callback r = cb_onError) ∧ quiet w
  | Confirming =>
      ∃ cs, pending w = confirm_request root <$> cs ∧ cs ⊆ stacks
  | Aborted =>
      pending w = [] ∧ confirmations w = [] ∧ length (completions w) = 1
      ∧ _result (job w) = Some Result.FAILED
      ∧ (∀ k v, status_of w !! k = Some v → v = "failed")
  end.

Record invariant (root : string) (stacks : list ContainerStack) (fresh : string)
    (archive : list Byte.byte) (w : World) : Prop := {
  inv_metadata : _printer_metadata (job w) = stacks;
  inv_filename : _archive_filename (job w) = Some fresh;
  inv_file : files w !! fresh = Some archive;
  inv_dom : dom (status_of w) = list_to_set (host_guid <$> stacks);
  inv_result : _result (job w) ≠ Some Result.SUCCCESS;
  inv_undecided : undecided w;
  inv_phase : ∃ p, in_phase root stacks p w
}.

(** ** Vocabulary of the further properties *)

(** The world after a usable upload-request response, and after the upload
    has finished. *)
Definition accepted (id upload_url : string) (file_data : list Byte.byte) (w : World) : World :=
  {| job := with_archive_remote_id (Some id) (job w); files := files w;
     pending := [upload_put upload_url file_data];
     sent := sent w ++ [upload_put upload_url file_data];
     emitted := emitted w; logged := logged w; uncaught := uncaught w |}.

Definition fanned_out (root : string) (w : World) : World :=
  {| job := job w; files := files w;
     pending := confirm_request root <$> _printer_metadata (job w);
     sent := sent w ++ (confirm_request root <$> _printer_metadata (job w));
     emitted := emitted w; logged := logged w; uncaught := uncaught w |}.

(** The four kinds of steps a started job takes. *)
Inductive transition (root : string) (stacks : list ContainerStack)
    (archive : list Byte.byte) (w : World) : World → Prop :=
| tr_aborted r res lg :
    pending w = [r] → quiet w → fatal r res = true →
    transition root stacks archive w (aborted (fatal_error res) lg (take_pending 0 w))
| tr_accepted r id upload_url :
    pending w = [r] → callback r = cb_onUploadRequestCompleted → quiet w →
    transition root stacks archive w (accepted id upload_url archive w)
| tr_fanned_out r :
    pending w = [r] → callback r = cb_onUploadCompleted → quiet w →
    _printer_metadata (job w) = stacks →
    transition root stacks archive w (fanned_out root w)
| tr_unhandled i cs :
    pending w = confirm_request root <$> cs → is_Some (cs !! i) →
    transition root stacks archive w (crashed TypeError (take_pending i w)).

(** The three strings a status can be. *)
Definition is_status (v : string) : Prop :=
  v = "uploading" ∨ v = "success" ∨ v = "failed".

(** Nothing has been decided and every printer is still uploading. *)
Record unfinished (w : World) : Prop := {
  unfinished_completions : completions w = [];
  unfinished_result : _result (job w) = None;
  unfinished_error : _error (job w) = None;
  unfinished_status : ∀ k v, status_of w !! k = Some v → v = "uploading"
}.

(** Where a started job stands, with the requests it has sent so far. *)
Inductive stage (root : string) (stacks : list ContainerStack)
    (archive : list Byte.byte) (w : World) : Prop :=
| stage_requesting :
    pending w = [upload_request root (length archive)] →
    sent w = [upload_request root (length archive)] →
    _archive_remote_id (job w) = None →
    quiet w →
    stage root stacks archive w
| stage_uploading upload_url id :
    pending w = [upload_put upload_url archive] →
    sent w = [upload_request root (length archive); upload_put upload_url archive] →
    _archive_remote_id (job w) = Some id →
    quiet w →
    stage root stacks archive w
| stage_confirming upload_url id cs :
    pending w = confirm_request root <$> cs →
    sent w = ([upload_request root (length archive); upload_put upload_url archive]
              ++ (confirm_request root <$> stacks))%list →
    _archive_remote_id (job w) = Some id →
    unfinished w →
    Forall (λ e, e = TypeError) (uncaught w) →
    (length (uncaught w) + length cs = length stacks)%nat →
    stage root stacks archive w
| stage_aborted error :
    pending w = [] →
    (sent w = [upload_request root (length archive)]
     ∨ ∃ upload_url, sent w = [upload_request root (length archive);
                               upload_put upload_url archive]) →
    completions w = [uploadCompleted (Some Result.FAILED) (Some error)] →
    error ≠ "" →
    _result (job w) = Some Result.FAILED →
    _error (job w) = Some error →
    uncaught w = [] →
    stage root stacks archive w.


(** ** Example inputs *)

Definition ex_root : string := "https://api.ultimaker.com".

Definition ex_printer_a : ContainerStack :=
  {| um_cloud_cluster_id := "cluster-1"; host_guid := "printer-a" |}.

Definition ex_printer_b : ContainerStack :=
  {| um_cloud_cluster_id := "cluster-2"; host_guid := "printer-b" |}.

Definition ex_archive : list Byte.byte := [Byte.x50; Byte.x4b].

(** A usable answer to the upload request. *)
Definition ex_slot : QNetworkReply :=
  {| readJSON := Some (<["upload_url" := "https://upload.example/slot"]>
                         (<["material_profile_id" := "profile-1"]> ∅)) |}.

(** An answer without a JSON body. *)
Definition ex_plain : QNetworkReply := {| readJSON := None |}.

(** A job for one printer, and the same job once its confirmation is in
    flight. *)
Definition ex_started : World :=
  start ex_root [ex_printer_a] "/tmp/tmpk3v9" [(1 # 2)%Q; 1%Q] ex_archive.

Definition ex_confirming : World :=
  default initial
    (deliver_all ex_root [(0, Finished ex_slot); (0, Finished ex_plain)] ex_started).

(** A job for two printers with both confirmations in flight. *)
Definition ex_confirming_two : World :=
  default initial
    (deliver_all ex_root [(0, Finished ex_slot); (0, Finished ex_plain)]
       (start ex_root [ex_printer_a; ex_printer_b] "/tmp/tmpk3v9" [] ex_archive)).

(** The example job while its upload is in flight, once its only
    confirmation has been answered, and when instead the upload request had
    failed. *)
Definition ex_uploading : World :=
  default initial (deliver ex_root 0 (Finished ex_slot) ex_started).

Definition ex_answered : World :=
  default initial (deliver ex_root 0 (Finished ex_plain) ex_confirming).

Definition ex_aborted : World :=
  default initial (deliver ex_root 0 (Errored ex_plain 203) ex_started).

(** The job for two printers after both confirmations have been answered,
    that of the second printer with an error. *)
Definition ex_answered_two : World :=
  default initial
    (deliver_all ex_root [(1, Errored ex_plain 203); (0, Finished ex_plain)]
       ex_confirming_two).

(** A job without printers while its upload is in flight. *)
Definition ex_uploading_none : World :=
  default initial
    (deliver ex_root 0 (Finished ex_slot) (start ex_root [] "/tmp/tmpk3v9" [] ex_archive)).

(** ** The effect of each method, as an equation *)

Section Effects.

Variable root : string.

Lemma failed_effect (error : string) (w : World) :
  failed error w =
  (Return tt,
   {| job := with_printer_sync_status (fmap (λ _, "failed"))
               (with_error (Some error) (with_result (Some Result.FAILED) (job w)));
      files := files w; pending := pending w; sent := sent w;
      emitted := (emitted w ++ [uploadProgressChanged 1 ((λ _, "failed") <$> status_of w)])
                   ++ [uploadCompleted (Some Result.FAILED) (Some error)];
      logged := logged w; uncaught := uncaught w |}).
Proof. reflexivity. Qed.

Lemma _onProcessProgressChanged_effect (progress : Q) (w : World) :
  _onProcessProgressChanged progress w =
  (Return tt,
   {| job := job w; files := files w; pending := pending w; sent := sent w;
      emitted := emitted w ++ [uploadProgressChanged (progress * (8 # 10)) (status_of w)];
      logged := logged w; uncaught := uncaught w |}).
Proof. reflexivity. Qed.

Lemma for_each_reports (reports : list Q) (w : World) :
  for_each reports _onProcessProgressChanged w =
  (Return tt,
   {| job := job w; files := files w; pending := pending w; sent := sent w;
      emitted := emitted w ++ ((λ p, uploadProgressChanged (p * (8 # 10)) (status_of w)) <$> reports);
      logged := logged w; uncaught := uncaught w |}).
Proof.
  revert w. induction reports as [|p reports IH]; intros w.
  - destruct w; simpl. by rewrite app_nil_r.
  - cbn [for_each]. unfold mbind, M_bind.
    rewrite _onProcessProgressChanged_effect, IH. cbn. by rewrite <- app_assoc.
Qed.

Lemma for_each_uploading (stacks : list ContainerStack) (w : World) :
  for_each stacks
    (λ printer, set_job (with_printer_sync_status (<[host_guid printer := "uploading"]>))) w =
  (Return tt,
   {| job := with_printer_sync_status
               (λ d, foldl (λ d printer, <[host_guid printer := "uploading"]> d) d stacks) (job w);
      files := files w; pending := pending w; sent := sent w;
      emitted := emitted w; logged := logged w; uncaught := uncaught w |}).
Proof.
  revert w. induction stacks as [|c stacks IH]; intros w.
  - by destruct w as [[] ? ? ? ? ? ?].
  - cbn [for_each]. unfold mbind, M_bind, set_job. by rewrite IH.
Qed.

Lemma for_each_confirm (stacks : list ContainerStack) (w : World) :
  for_each stacks
    (λ container_stack,
       http_request {| method := GET;
                       url := UPLOAD_CONFIRM_URL root (um_cloud_cluster_id container_stack)
                                (host_guid container_stack);
                       data := NoBody;
                       callback := cb_onUploadConfirmed (host_guid container_stack);
                       error_callback := cb_onUploadConfirmed (host_guid container_stack) |}) w =
  (Return tt,
   {| job := job w; files := files w;
      pending := pending w ++ (confirm_request root <$> stacks);
      sent := sent w ++ (confirm_request root <$> stacks);
      emitted := emitted w; logged := logged w; uncaught := uncaught w |}).
Proof.
  revert w. induction stacks as [|c stacks IH]; intros w.
  - destruct w; simpl. by rewrite !app_nil_r.
  - cbn [for_each]. unfold mbind, M_bind, http_request. rewrite IH. cbn.
    by rewrite <- !app_assoc.
Qed.

Lemma onUploadCompleted_effect reply error (w : World) :
  onUploadCompleted root reply error w =
  (Return tt,
   {| job := job w; files := files w;
      pending := pending w ++ (confirm_request root <$> _printer_metadata (job w));
      sent := sent w ++ (confirm_request root <$> _printer_metadata (job w));
      emitted := emitted w; logged := logged w; uncaught := uncaught w |}).
Proof.
  unfold onUploadCompleted, mbind, M_bind, gets. by rewrite for_each_confirm.
Qed.

Lemma run_effect stacks fresh reports archive :
  run root stacks fresh reports archive initial =
  (Return tt,
   {| job := {| _printer_metadata := stacks;
                _printer_sync_status := initial_status stacks;
                _archive_filename := Some fresh; _archive_remote_id := None;
                _result := None; _error := None |};
      files := <[fresh := archive]> (<[fresh := []]> ∅);
      pending := [upload_request root (length archive)];
      sent := [upload_request root (length archive)];
      emitted := (λ p, uploadProgressChanged (p * (8 # 10)) (initial_status stacks)) <$> reports;
      logged := []; uncaught := [] |}).
Proof.
  unfold run, exportAll, NamedTemporaryFile, close, getsize.
  unfold mbind, M_bind, set_job at 1, gets.
  rewrite for_each_uploading.
  unfold set_files, set_job, mret, M_ret. cbn [delete_on_close name].
  rewrite for_each_reports.
  unfold get_files. cbn [files].
  by rewrite lookup_insert_eq.
Qed.

Lemma size_confirmed_status printer_id error d :
  size (confirmed_status printer_id error d) ≠ 0.
Proof.
  unfold confirmed_status. intros H%map_size_empty_inv.
  by apply insert_non_empty in H.
Qed.

Ltac confirmed_cases w error :=
  unfold onUploadConfirmed, getPrinterSyncStatus, getResult, getError, setResult, setError,
    mbind, M_bind;
  destruct error; unfold Logger_error, set_job, gets, emit; cbn [job emitted];
  fold (status_of w);
  unfold confirmed_status, still_uploading in *;
  cbn [_printer_sync_status with_printer_sync_status];
  fold (status_of w);
  (destruct (decide (size _ = 0)); [done|]);
  first [ destruct (decide (length _ = 0)); [|done]
        | destruct (decide (length _ = 0)); [done|] ];
  try first [ destruct (decide ("failed" ∈ _)); [|done]
            | destruct (decide ("failed" ∈ _)); [done|] ];
  unfold mret, M_ret; cbn; by rewrite ?app_nil_r, <- ?app_assoc.

(** Some printer is still uploading: the progress is reported and nothing
    else happens. *)
Lemma onUploadConfirmed_pending printer_id reply error (w : World) :
  still_uploading (confirmed_status printer_id error (status_of w)) ≠ 0 →
  onUploadConfirmed printer_id reply error w =
  (Return tt,
   {| job := with_printer_sync_status (confirmed_status printer_id error) (job w);
      files := files w; pending := pending w; sent := sent w;
      emitted := emitted w ++
        [uploadProgressChanged (confirm_progress (confirmed_status printer_id error (status_of w)))
           (confirmed_status printer_id error (status_of w))];
      logged := logged w ++ confirm_log error; uncaught := uncaught w |}).
Proof.
  intros Hstill.
  pose proof (size_confirmed_status printer_id error (status_of w)) as Hsize.
  confirmed_cases w error.
Qed.

(** The last answer is in and some printer failed. *)
Lemma onUploadConfirmed_last_failed printer_id reply error (w : World) :
  still_uploading (confirmed_status printer_id error (status_of w)) = 0 →
  "failed" ∈ values (confirmed_status printer_id error (status_of w)) →
  onUploadConfirmed printer_id reply error w =
  (Return tt,
   {| job := with_error (Some "Failed to connect to Digital Factory to sync materials with some of the printers.")
               (with_result (Some Result.FAILED)
                  (with_printer_sync_status (confirmed_status printer_id error) (job w)));
      files := files w; pending := pending w; sent := sent w;
      emitted := emitted w ++
        [uploadProgressChanged (confirm_progress (confirmed_status printer_id error (status_of w)))
           (confirmed_status printer_id error (status_of w));
         uploadCompleted (Some Result.FAILED)
           (Some "Failed to connect to Digital Factory to sync materials with some of the printers.")];
      logged := logged w ++ confirm_log error; uncaught := uncaught w |}).
Proof.
  intros Hstill Hfailed.
  pose proof (size_confirmed_status printer_id error (status_of w)) as Hsize.
  confirmed_cases w error.
Qed.

(** The last answer is in and no printer failed: [Result.SUCCESS] is looked
    up, which is not a member of [Result]. *)
Lemma onUploadConfirmed_last_success printer_id reply error (w : World) :
  still_uploading (confirmed_status printer_id error (status_of w)) = 0 →
  "failed" ∉ values (confirmed_status printer_id error (status_of w)) →
  onUploadConfirmed printer_id reply error w =
  (Raise (AttributeError "SUCCESS"),
   {| job := with_printer_sync_status (confirmed_status printer_id error) (job w);
      files := files w; pending := pending w; sent := sent w;
      emitted := emitted w ++
        [uploadProgressChanged (confirm_progress (confirmed_status printer_id error (status_of w)))
           (confirmed_status printer_id error (status_of w))];
      logged := logged w ++ confirm_log error; uncaught := uncaught w |}).
Proof.
  intros Hstill Hfailed.
  pose proof (size_confirmed_status printer_id error (status_of w)) as Hsize.
  confirmed_cases w error.
Qed.

Lemma fatal_effect (r : Request) (res : Resolution) (w : World) :
  fatal r res = true →
  ∃ lg, exec (resolve root r res) w = aborted (fatal_error res) lg w.
Proof.
  unfold fatal, malformed, exec, resolve, aborted, fatal_error.
  destruct res as [reply|reply e].
  - intros [Hcb Hbad]%andb_prop. apply bool_decide_eq_true in Hcb. rewrite Hcb.
    cbn [call]. unfold onUploadRequestCompleted.
    destruct (readJSON reply) as [d|].
    + apply orb_prop in Hbad as [H|H]; apply bool_decide_eq_true in H.
      * rewrite H. eexists. unfold mbind, M_bind, Logger_error.
        rewrite failed_effect. cbn. by rewrite <- app_assoc.
      * destruct (d !! "upload_url"); rewrite ?H; eexists;
          unfold mbind, M_bind, Logger_error; rewrite failed_effect; cbn;
          by rewrite <- app_assoc.
    + eexists. unfold mbind, M_bind, Logger_error.
      rewrite failed_effect. cbn. by rewrite <- app_assoc.
  - intros Hcb%bool_decide_eq_true. rewrite Hcb. cbn [call]. unfold onError.
    eexists. unfold mbind, M_bind, Logger_error.
    rewrite failed_effect. cbn. by rewrite <- app_assoc.
Qed.

End Effects.

(** ** Facts about the status table *)

Lemma elem_of_values (d : gmap string string) (v : string) :
  v ∈ values d ↔ ∃ k, d !! k = Some v.
Proof.
  unfold values. rewrite list_elem_of_fmap. split.
  - intros [[k v'] [-> Hin]]. exists k. by apply elem_of_map_to_list.
  - intros [k Hk]. exists (k, v). split; [done|]. by apply elem_of_map_to_list.
Qed.

Lemma foldl_uploading_lookup (stacks : list ContainerStack) (d : gmap string string) k v :
  foldl (λ d printer, <[host_guid printer := "uploading"]> d) d stacks !! k = Some v →
  v = "uploading" ∨ d !! k = Some v.
Proof.
  revert d. induction stacks as [|c stacks IH]; intros d; cbn [foldl]; [by right|].
  intros [->|Hk]%IH; [by left|].
  rewrite lookup_insert in Hk. case_decide; [left; congruence | by right].
Qed.

Lemma foldl_uploading_dom (stacks : list ContainerStack) (d : gmap string string) :
  dom (foldl (λ d printer, <[host_guid printer := "uploading"]> d) d stacks)
  = list_to_set (host_guid <$> stacks) ∪ dom d.
Proof.
  revert d. induction stacks as [|c stacks IH]; intros d; cbn [foldl].
  - set_solver.
  - rewrite IH, dom_insert_L. set_solver.
Qed.

Lemma initial_status_uploading stacks k v :
  initial_status stacks !! k = Some v → v = "uploading".
Proof.
  intros [->|H]%foldl_uploading_lookup; [done|]. by rewrite lookup_empty in H.
Qed.

Lemma initial_status_dom stacks :
  dom (initial_status stacks) = list_to_set (host_guid <$> stacks).
Proof. unfold initial_status. rewrite foldl_uploading_dom. set_solver. Qed.

Lemma exec_onUploadConfirmed printer_id reply error (w : World) :
  confirmed_case printer_id error w (exec (onUploadConfirmed printer_id reply error) w).
Proof.
  unfold exec.
  destruct (decide (still_uploading (confirmed_status printer_id error (status_of w)) = 0))
    as [Hz|Hnz].
  - destruct (decide ("failed" ∈ values (confirmed_status printer_id error (status_of w))))
      as [Hf|Hf].
    + rewrite onUploadConfirmed_last_failed by done. cbv beta iota.
      match goal with
      | |- confirmed_case _ _ _ ?w' =>
          replace w' with (completed_failed (reported printer_id error w))
      end.
      * by apply confirmed_last_failed.
      * unfold completed_failed, reported, partial_failure. cbn. by rewrite <- app_assoc.
    + rewrite onUploadConfirmed_last_success by done. by apply confirmed_last_success.
  - rewrite onUploadConfirmed_pending by done. by apply confirmed_pending.
Qed.

(** ** The invariant of a started job *)

Section Invariant.

Variables (root : string) (stacks : list ContainerStack) (fresh : string)
  (reports : list Q) (archive : list Byte.byte).

Lemma start_effect :
  start root stacks fresh reports archive =
  {| job := {| _printer_metadata := stacks;
               _printer_sync_status := initial_status stacks;
               _archive_filename := Some fresh; _archive_remote_id := None;
               _result := None; _error := None |};
     files := <[fresh := archive]> (<[fresh := []]> ∅);
     pending := [upload_request root (length archive)];
     sent := [upload_request root (length archive)];
     emitted := (λ p, uploadProgressChanged (p * (8 # 10)) (initial_status stacks)) <$> reports;
     logged := []; uncaught := [] |}.
Proof. unfold start, exec. by rewrite run_effect. Qed.

Lemma filter_completion_reports (d : gmap string string) (l : list Q) :
  List.filter is_completion ((λ p, uploadProgressChanged (p * (8 # 10)) d) <$> l) = [].
Proof. by induction l. Qed.

Lemma start_invariant :
  invariant root stacks fresh archive (start root stacks fresh reports archive).
Proof.
  rewrite start_effect. split; cbn; try done.
  - apply lookup_insert_eq.
  - apply initial_status_dom.
  - intros _. unfold completions. cbn. by rewrite filter_completion_reports.
  - exists Requesting. cbn. split; [by eexists|].
    split; cbn; try done.
    + apply filter_completion_reports.
    + apply initial_status_uploading.
Qed.

Lemma deliver_Some i res (w w' : World) :
  deliver root i res w = Some w' ↔
  ∃ r, pending w !! i = Some r ∧ w' = exec (resolve root r res) (take_pending i w).
Proof.
  unfold deliver. destruct (pending w !! i) as [r|]; cbn.
  - split; [intros [= <-]; eauto | by intros (? & [= <-] & ->)].
  - split; [done | by intros (? & ? & _)].
Qed.

Lemma completions_app (w : World) es :
  List.filter is_completion (emitted w ++ es) = (completions w ++ List.filter is_completion es)%list.
Proof. apply List.filter_app. Qed.

Lemma confirmations_app (w : World) rs :
  List.filter is_confirmation (sent w ++ rs) = (confirmations w ++ List.filter is_confirmation rs)%list.
Proof. apply List.filter_app. Qed.

(** A fatal failure in a quiet world with nothing else in flight. *)
Lemma aborted_invariant (w : World) i error lg :
  invariant root stacks fresh archive w → quiet w → base.delete i (pending w) = [] →
  invariant root stacks fresh archive (aborted error lg (take_pending i w)).
Proof.
  intros [Hmeta Hname Hfile Hdom Hres _ _] [Hcompl Hconf _ _ _ _] Hpending.
  split; cbn; try done.
  - unfold status_of in *. cbn. by rewrite dom_fmap_L.
  - intros [k Hk]. revert Hk. unfold status_of. cbn. rewrite lookup_fmap.
    by destruct (_ !! k).
  - exists Aborted. cbn. repeat split; try done.
    + unfold completions. cbn.
      by rewrite completions_app, Hcompl.
    + unfold status_of. cbn. intros k v. rewrite lookup_fmap.
      destruct (_ !! k); by intros [= <-].
Qed.

(** A usable upload-request response: the archive is read and uploaded. *)
Lemma onUploadRequestCompleted_accepted reply error (w : World) d upload_url id path content :
  readJSON reply = Some d →
  d !! "upload_url" = Some upload_url →
  d !! "material_profile_id" = Some id →
  _archive_filename (job w) = Some path →
  files w !! path = Some content →
  onUploadRequestCompleted reply error w =
  (Return tt,
   {| job := with_archive_remote_id (Some id) (job w); files := files w;
      pending := pending w ++ [upload_put upload_url content];
      sent := sent w ++ [upload_put upload_url content];
      emitted := emitted w; logged := logged w; uncaught := uncaught w |}).
Proof.
  intros Hd Hurl Hid Hpath Hfile. unfold onUploadRequestCompleted.
  rewrite Hd, Hurl, Hid.
  unfold mbind, M_bind, set_job, gets, read_file. cbn [job _archive_filename with_archive_remote_id].
  rewrite Hpath. unfold mbind, M_bind, get_files. cbn [files]. by rewrite Hfile.
Qed.

(** The answer to a confirmation does not reach [onUploadConfirmed]. *)
Lemma exec_resolve_confirm (c : ContainerStack) (res : Resolution) (w : World) :
  exec (resolve root (confirm_request root c) res) w = crashed TypeError w.
Proof. by destruct res. Qed.

Lemma not_fatal_accepted (r : Request) (res : Resolution) :
  callback r = cb_onUploadRequestCompleted → error_callback r = cb_onError →
  fatal r res = false →
  ∃ reply d upload_url id,
    res = Finished reply ∧ readJSON reply = Some d
    ∧ d !! "upload_url" = Some upload_url ∧ d !! "material_profile_id" = Some id.
Proof.
  intros Hcb Hecb. unfold fatal, malformed. destruct res as [reply|reply e].
  - rewrite Hcb, bool_decide_eq_true_2 by done. cbn [andb].
    destruct (readJSON reply) as [d|] eqn:Hd; [|done].
    intros [H1 H2]%orb_false_elim.
    apply bool_decide_eq_false in H1, H2.
    destruct (d !! "upload_url") as [u|] eqn:Hu; [|done].
    destruct (d !! "material_profile_id") as [m|] eqn:Hm; [|done].
    by exists reply, d, u, m.
  - by rewrite Hecb, bool_decide_eq_true_2.
Qed.

(** One confirmation is resolved while the job is confirming. *)
Lemma confirming_step (w : World) cs i c res :
  invariant root stacks fresh archive w →
  pending w = confirm_request root <$> cs → cs ⊆ stacks →
  cs !! i = Some c →
  invariant root stacks fresh archive
    (exec (resolve root (confirm_request root c) res) (take_pending i w)).
Proof.
  intros [Hmeta Hname Hfile Hdom Hres Hund _] Hpending Hsub Hi.
  rewrite exec_resolve_confirm.
  split; cbn; try done.
  exists Confirming. cbn. exists (base.delete i cs).
  split; [by rewrite Hpending, list_fmap_delete|].
  intros x Hx. apply Hsub. by eapply list_elem_of_delete_inv.
Qed.

Lemma step_invariant (w w' : World) :
  invariant root stacks fresh archive w → step root w w' →
  invariant root stacks fresh archive w'.
Proof.
  intros Hinv Hstep. destruct Hstep as [w i res w' (r & Hi & ->)%deliver_Some].
  pose proof Hinv as [Hmeta Hname Hfile Hdom Hres Hund [p Hp]].
  destruct p; cbn in Hp.
  - (* the upload request is answered *)
    destruct Hp as [(r0 & Hpending & Hcb & Hecb) Hquiet].
    rewrite Hpending in Hi. apply list_lookup_singleton_Some in Hi as [-> ->].
    destruct (fatal r res) eqn:Hfatal.
    + destruct (fatal_effect root r res (take_pending 0 w) Hfatal) as [lg ->].
      apply aborted_invariant; [done..|]. by rewrite Hpending.
    + destruct (not_fatal_accepted r res Hcb Hecb Hfatal)
        as (reply & d & upload_url & id & -> & Hd & Hurl & Hid).
      unfold exec, resolve. rewrite Hcb. cbn [call].
      rewrite (onUploadRequestCompleted_accepted _ _ _ d upload_url id fresh archive)
        by done.
      destruct Hquiet as [Hcompl Hconf Hr He Hu Hst].
      split; cbn; try done.
      exists Uploading. cbn. rewrite Hpending. split; [by eexists|].
      split; cbn; try done.
      by rewrite confirmations_app, Hconf.
  - (* the upload is answered *)
    destruct Hp as [(r0 & Hpending & Hcb & Hecb) Hquiet].
    rewrite Hpending in Hi. apply list_lookup_singleton_Some in Hi as [-> ->].
    destruct res as [reply|reply e].
    + unfold exec, resolve. rewrite Hcb. cbn [call].
      rewrite onUploadCompleted_effect.
      destruct Hquiet as [Hcompl Hconf Hr He Hu Hst].
      split; cbn; try done.
      exists Confirming. cbn. exists stacks. by rewrite Hpending, Hmeta.
    + assert (fatal r (Errored reply e) = true) as Hfatal
        by (cbn; by rewrite Hecb, bool_decide_eq_true_2).
      destruct (fatal_effect root r _ (take_pending 0 w) Hfatal) as [lg ->].
      apply aborted_invariant; [done..|]. by rewrite Hpending.
  - (* a confirmation is answered *)
    destruct Hp as (cs & Hpending & Hsub).
    rewrite Hpending in Hi.
    apply list_lookup_fmap_Some in Hi as (c & -> & Hc).
    by eapply confirming_step.
  - (* nothing is in flight after a fatal failure *)
    destruct Hp as (Hpending & _). by rewrite Hpending in Hi.
Qed.

Lemma reachable_invariant (w : World) :
  reachable root stacks fresh reports archive w →
  invariant root stacks fresh archive w.
Proof.
  unfold reachable. revert w. apply rtc_ind_r.
  - apply start_invariant.
  - intros w w' _ Hstep IH. by eapply step_invariant.
Qed.

(** Once nothing is in flight the job stays as it is. *)
Lemma idle_final (w w' : World) :
  pending w = [] → rtc (step root) w w' → w' = w.
Proof.
  intros Hpending Hrtc. induction Hrtc as [|w w1 w2 Hstep _ _]; [done|].
  destruct Hstep as [w i res w1 (r & Hi & _)%deliver_Some].
  by rewrite Hpending in Hi.
Qed.

End Invariant.

(** ** Properties of the job *)

Section Properties.

Variables (root : string) (stacks : list ContainerStack) (fresh : string)
  (reports : list Q) (archive : list Byte.byte).

Lemma confirm_request_not_fatal (c : ContainerStack) (res : Resolution) :
  fatal (confirm_request root c) res = false.
Proof. by destruct res. Qed.

(** A fatal failure can only meet a job that has decided nothing yet and has
    that one request in flight; the job is then aborted. *)
Lemma fatal_step (w : World) i r res :
  reachable root stacks fresh reports archive w →
  pending w !! i = Some r → fatal r res = true →
  ∃ lg,
    deliver root i res w = Some (aborted (fatal_error res) lg (take_pending i w))
    ∧ quiet w ∧ base.delete i (pending w) = [].
Proof.
  intros [_ _ _ _ _ _ [p Hp]]%reachable_invariant Hi Hfatal.
  destruct (fatal_effect root r res (take_pending i w) Hfatal) as [lg Hlg].
  exists lg. unfold deliver. rewrite Hi. cbn. rewrite Hlg. split; [done|].
  destruct p; cbn in Hp.
  - destruct Hp as [(r0 & Hpending & _) Hquiet]. split; [done|].
    rewrite Hpending in Hi |- *.
    by apply list_lookup_singleton_Some in Hi as [-> _].
  - destruct Hp as [(r0 & Hpending & _) Hquiet]. split; [done|].
    rewrite Hpending in Hi |- *.
    by apply list_lookup_singleton_Some in Hi as [-> _].
  - destruct Hp as (cs & Hpending & _). rewrite Hpending in Hi.
    apply list_lookup_fmap_Some in Hi as (c & -> & _).
    by rewrite confirm_request_not_fatal in Hfatal.
  - destruct Hp as (Hpending & _). by rewrite Hpending in Hi.
Qed.

Lemma fatal_error_nonempty (res : Resolution) : fatal_error res ≠ "".
Proof. destruct res as [reply|]; cbn; [by destruct (readJSON reply)|done]. Qed.

(** C7. On a fatal failure of phase 1 or 2 (a transport error, an
    unparseable response or a response lacking a required field) the job
    at once emits progress 1.0, sets its result to FAILED with an error
    message, and emits the completion notification; that notification is the
    only one the job ever emits. *)
Theorem fatal_failure_finalizes (w : World) i r res :
  reachable root stacks fresh reports archive w →
  pending w !! i = Some r → fatal r res = true →
  ∃ w' status,
    deliver root i res w = Some w'
    ∧ emitted w' = (emitted w ++
        [uploadProgressChanged 1 status;
         uploadCompleted (Some Result.FAILED) (Some (fatal_error res))])%list
    ∧ _result (job w') = Some Result.FAILED
    ∧ _error (job w') = Some (fatal_error res)
    ∧ fatal_error res ≠ ""
    ∧ (∀ w'', rtc (step root) w' w'' →
         completions w'' = [uploadCompleted (Some Result.FAILED) (Some (fatal_error res))]).
Proof.
  intros Hreach Hi Hfatal.
  destruct (fatal_step w i r res Hreach Hi Hfatal) as (lg & Hdeliver & Hquiet & Hpending).
  eexists _, _. split; [exact Hdeliver|]. cbn.
  repeat split; [apply fatal_error_nonempty|].
  intros w'' ->%idle_final; [|done].
  unfold completions. cbn. by rewrite completions_app, (quiet_completions _ Hquiet).
Qed.

(** C5. When the upload-request response does not parse, or lacks
    [upload_url] or [material_profile_id], the job fails at once with one of
    the two messages for a bad response, and no confirmation request is ever
    issued. *)
Theorem malformed_response_aborts (w : World) i r reply :
  reachable root stacks fresh reports archive w →
  pending w !! i = Some r →
  callback r = cb_onUploadRequestCompleted →
  malformed reply = true →
  ∃ w' msg,
    deliver root i (Finished reply) w = Some w'
    ∧ _result (job w') = Some Result.FAILED
    ∧ _error (job w') = Some msg
    ∧ (msg = "The response from Digital Factory appears to be corrupted."
       ∨ msg = "The response from Digital Factory is missing important information.")
    ∧ last (emitted w') = Some (uploadCompleted (Some Result.FAILED) (Some msg))
    ∧ (∀ w'', rtc (step root) w' w'' → confirmations w'' = []).
Proof.
  intros Hreach Hi Hcb Hbad.
  assert (fatal r (Finished reply) = true) as Hfatal
    by (cbn; by rewrite Hcb, bool_decide_eq_true_2, Hbad).
  destruct (fatal_step w i r _ Hreach Hi Hfatal) as (lg & Hdeliver & Hquiet & Hpending).
  eexists _, _. split; [exact Hdeliver|]. cbn.
  repeat split.
  - destruct (readJSON reply); [by right|by left].
  - by rewrite last_app.
  - intros w'' ->%idle_final; [|done]. apply Hquiet.
Qed.

(** C10. On a fatal failure of phase 1 or 2 every printer of the status
    table is marked ["failed"] (none of them has been sent a confirmation
    request) and the table is already in that state when the progress and
    the completion notification are emitted. *)
Theorem fatal_failure_marks_all_failed (w : World) i r res :
  reachable root stacks fresh reports archive w →
  pending w !! i = Some r → fatal r res = true →
  ∃ w',
    deliver root i res w = Some w'
    ∧ confirmations w' = []
    ∧ dom (status_of w') = dom (status_of w)
    ∧ (∀ c, c ∈ stacks → status_of w' !! host_guid c = Some "failed")
    ∧ (∀ k v, status_of w' !! k = Some v → v = "failed")
    ∧ emitted w' = (emitted w ++
        [uploadProgressChanged 1 (status_of w');
         uploadCompleted (_result (job w')) (_error (job w'))])%list.
Proof.
  intros Hreach Hi Hfatal.
  destruct (fatal_step w i r res Hreach Hi Hfatal) as (lg & Hdeliver & Hquiet & Hpending).
  pose proof (reachable_invariant _ _ _ _ _ _ Hreach) as Hinv.
  eexists. split; [exact Hdeliver|].
  assert (∀ k v, status_of (aborted (fatal_error res) lg (take_pending i w)) !! k = Some v
                 → v = "failed") as Hall.
  { unfold status_of. cbn. intros k v. rewrite lookup_fmap.
    destruct (_ !! k); by intros [= <-]. }
  repeat split; try done.
  - apply Hquiet.
  - unfold status_of. cbn. by rewrite dom_fmap_L.
  - intros c Hc.
    assert (host_guid c ∈ dom (status_of (aborted (fatal_error res) lg (take_pending i w))))
      as [v Hv]%elem_of_dom.
    { unfold status_of. cbn. rewrite dom_fmap_L.
      fold (status_of w). rewrite (inv_dom _ _ _ _ _ Hinv).
      apply elem_of_list_to_set. by apply list_elem_of_fmap_2. }
    by rewrite Hv, (Hall _ _ Hv).
Qed.

(** C9. The archive file the job created is on disk, with the exported
    archive in it, in every state the job can reach: no path of the job
    deletes it. *)
Theorem archive_never_deleted (w : World) :
  reachable root stacks fresh reports archive w →
  _archive_filename (job w) = Some fresh ∧ files w !! fresh = Some archive.
Proof. intros [_ Hname Hfile _ _ _ _]%reachable_invariant. done. Qed.

(** C8. The answer to a printer's confirmation does not set that printer's
    status: the callback registered for it cannot be called, so the request
    leaves the requests in flight, a [TypeError] is raised, and the job
    object (status table, result, error) and the signals emitted stay as
    they were, whether the request finished or failed. *)
Theorem confirmation_answer_unhandled (w : World) i r printer_id res :
  pending w !! i = Some r →
  callback r = cb_onUploadConfirmed printer_id →
  error_callback r = cb_onUploadConfirmed printer_id →
  ∃ w',
    deliver root i res w = Some w'
    ∧ job w' = job w
    ∧ emitted w' = emitted w
    ∧ sent w' = sent w
    ∧ pending w' = base.delete i (pending w)
    ∧ uncaught w' = (uncaught w ++ [TypeError])%list.
Proof.
  intros Hi Hcb Hecb. eexists. split.
  { unfold deliver. rewrite Hi. reflexivity. }
  destruct res; unfold exec, resolve; rewrite ?Hcb, ?Hecb; by cbn.
Qed.

(** What [onUploadConfirmed] reports when no printer is left uploading. *)
Lemma confirm_progress_all_resolved (d : gmap string string) :
  size d ≠ 0 → still_uploading d = 0 → (confirm_progress d == 18 # 10)%Q.
Proof.
  intros Hsize Hstill. unfold confirm_progress. rewrite Hstill.
  change (Z.of_nat 0) with 0%Z. rewrite Z.sub_0_r.
  unfold Qdiv. rewrite Qmult_inv_r.
  - reflexivity.
  - unfold inject_Z, Qeq. cbn. lia.
Qed.

End Properties.

(** ** Runs of the job on concrete inputs *)

Lemma deliver_all_rtc root script (w w' : World) :
  deliver_all root script w = Some w' → rtc (step root) w w'.
Proof.
  revert w. induction script as [|[i res] script IH]; intros w; cbn.
  - by intros [= ->].
  - destruct (deliver root i res w) as [w1|] eqn:Hd; cbn; [|done].
    intros Hrest. eapply rtc_l; [by econstructor|by apply IH].
Qed.

(** C1. One printer whose confirmation finishes without error.  Through
    the request manager the answer raises [TypeError] at the callback: the
    progress values stay at 0.4 and 0.8, the printer stays ["uploading"], and
    the job gets no result and no completion notification.  Run directly on
    the same state, [onUploadConfirmed] reports 0.8 + 1/1 = 1.8 and raises
    [AttributeError] at [Result.SUCCESS], again without result or
    completion. *)
Theorem all_confirmed_no_success :
  (λ w, (Qred <$> progress_values w, status_of w !! "printer-a", _result (job w),
         completions w, uncaught w, pending w))
    <$> deliver ex_root 0 (Finished ex_plain) ex_confirming
  = Some ([(2 # 5)%Q; (4 # 5)%Q], Some "uploading", None, [], [TypeError], [])
  ∧ (λ w, (Qred <$> progress_values w, status_of w !! "printer-a", _result (job w),
           completions w, uncaught w))
      (exec (onUploadConfirmed "printer-a" ex_plain None) (take_pending 0 ex_confirming))
    = ([(2 # 5)%Q; (4 # 5)%Q; (9 # 5)%Q], Some "success", None, [],
       [AttributeError "SUCCESS"]).
Proof. split; by vm_compute. Qed.

(** C2. Two printers, the confirmation of the second finishes first and
    without error.  Through the request manager no progress is emitted at
    all and both printers stay ["uploading"].  Run directly on the same
    state, [onUploadConfirmed] reports 0.8 + 1/2 = 1.3 for one printer of two
    resolved, where 0.8 + 0.2 * (1/2) is 0.9. *)
Theorem first_of_two_confirmations_progress :
  (λ w, (progress_values w, status_of w !! "printer-a", status_of w !! "printer-b",
         uncaught w))
    <$> deliver ex_root 1 (Finished ex_plain) ex_confirming_two
  = Some ([], Some "uploading", Some "uploading", [TypeError])
  ∧ (λ w, (Qred <$> progress_values w, status_of w !! "printer-a",
           status_of w !! "printer-b", size (status_of w)))
      (exec (onUploadConfirmed "printer-b" ex_plain None) (take_pending 1 ex_confirming_two))
    = ([(13 # 10)%Q], Some "uploading", Some "success", 2)
  ∧ Qred ((8 # 10) + (2 # 10) * (1 # 2)) = (9 # 10)%Q.
Proof. repeat split; by vm_compute. Qed.


(** C4, as the code has it. Started without any printer, [run] does not
    fail: it returns normally, leaves the status table empty and the job
    without result or error, creates the archive file and has the archive
    exported into it, and sends the upload request announcing its size. *)
Theorem start_without_printers (root fresh : string) (reports : list Q)
    (archive : list Byte.byte) :
  let w := start root [] fresh reports archive in
  uncaught w = [] ∧ _result (job w) = None ∧ _error (job w) = None
  ∧ status_of w = ∅ ∧ completions w = []
  ∧ _archive_filename (job w) = Some fresh
  ∧ files w !! fresh = Some archive
  ∧ sent w = [upload_request root (length archive)]
  ∧ pending w = [upload_request root (length archive)].
Proof.
  cbv zeta. rewrite start_effect. cbn.
  split; [done|]. split; [done|]. split; [done|]. split; [done|].
  split; [apply filter_completion_reports|]. split; [done|].
  split; [apply lookup_insert_eq|done].
Qed.

(** C4 does not hold as stated: a job started without printers has sent a
    request and has neither raised nor recorded an error. *)
Lemma start_without_printers_counterexample :
  ¬ (let w := start ex_root [] "/tmp/tmpk3v9" [] ex_archive in
     (uncaught w ≠ [] ∨ is_Some (_error (job w))) ∧ sent w = []).
Proof. cbv zeta. rewrite start_effect. cbn. by intros [_ ?]. Qed.

(** ** The theorems at work on the example job *)

(** The upload request of the example job is answered with an error. *)
Lemma fatal_failure_finalizes_witness :
  pending ex_started !! 0 = Some (upload_request ex_root 2)
  ∧ fatal (upload_request ex_root 2) (Errored ex_plain 203) = true
  ∧ ∃ w' status,
      deliver ex_root 0 (Errored ex_plain 203) ex_started = Some w'
      ∧ emitted w' = (emitted ex_started ++
          [uploadProgressChanged 1 status;
           uploadCompleted (Some Result.FAILED) (Some "Failed to connect to Digital Factory.")])%list
      ∧ _result (job w') = Some Result.FAILED
      ∧ _error (job w') = Some "Failed to connect to Digital Factory."
      ∧ "Failed to connect to Digital Factory." ≠ ""
      ∧ (∀ w'', rtc (step ex_root) w' w'' →
           completions w'' =
           [uploadCompleted (Some Result.FAILED) (Some "Failed to connect to Digital Factory.")]).
Proof.
  split; [by vm_compute|]. split; [by vm_compute|].
  apply (fatal_failure_finalizes ex_root [ex_printer_a] "/tmp/tmpk3v9"
           [(1 # 2)%Q; 1%Q] ex_archive ex_started 0 (upload_request ex_root 2)
           (Errored ex_plain 203)).
  - apply rtc_refl.
  - by vm_compute.
  - by vm_compute.
Defined.

(** The upload request of the example job is answered without JSON. *)
Lemma malformed_response_aborts_witness :
  pending ex_started !! 0 = Some (upload_request ex_root 2)
  ∧ malformed ex_plain = true
  ∧ ∃ w' msg,
      deliver ex_root 0 (Finished ex_plain) ex_started = Some w'
      ∧ _result (job w') = Some Result.FAILED
      ∧ _error (job w') = Some msg
      ∧ (msg = "The response from Digital Factory appears to be corrupted."
         ∨ msg = "The response from Digital Factory is missing important information.")
      ∧ last (emitted w') = Some (uploadCompleted (Some Result.FAILED) (Some msg))
      ∧ (∀ w'', rtc (step ex_root) w' w'' → confirmations w'' = []).
Proof.
  split; [by vm_compute|]. split; [by vm_compute|].
  apply (malformed_response_aborts ex_root [ex_printer_a] "/tmp/tmpk3v9"
           [(1 # 2)%Q; 1%Q] ex_archive ex_started 0 (upload_request ex_root 2) ex_plain).
  - apply rtc_refl.
  - by vm_compute.
  - reflexivity.
  - by vm_compute.
Defined.

Lemma fatal_failure_marks_all_failed_witness :
  pending ex_started !! 0 = Some (upload_request ex_root 2)
  ∧ fatal (upload_request ex_root 2) (Errored ex_plain 203) = true
  ∧ ∃ w',
      deliver ex_root 0 (Errored ex_plain 203) ex_started = Some w'
      ∧ confirmations w' = []
      ∧ dom (status_of w') = dom (status_of ex_started)
      ∧ (∀ c, c ∈ [ex_printer_a] → status_of w' !! host_guid c = Some "failed")
      ∧ (∀ k v, status_of w' !! k = Some v → v = "failed")
      ∧ emitted w' = (emitted ex_started ++
          [uploadProgressChanged 1 (status_of w');
           uploadCompleted (_result (job w')) (_error (job w'))])%list.
Proof.
  split; [by vm_compute|]. split; [by vm_compute|].
  apply (fatal_failure_marks_all_failed ex_root [ex_printer_a] "/tmp/tmpk3v9"
           [(1 # 2)%Q; 1%Q] ex_archive ex_started 0 (upload_request ex_root 2)
           (Errored ex_plain 203)).
  - apply rtc_refl.
  - by vm_compute.
  - by vm_compute.
Defined.

(** The archive of the example job is still on disk while the confirmation
    is in flight. *)
Lemma archive_never_deleted_witness :
  _archive_filename (job ex_confirming) = Some "/tmp/tmpk3v9"
  ∧ files ex_confirming !! "/tmp/tmpk3v9" = Some ex_archive.
Proof.
  apply (archive_never_deleted ex_root [ex_printer_a] "/tmp/tmpk3v9"
           [(1 # 2)%Q; 1%Q] ex_archive ex_confirming).
  apply (deliver_all_rtc _ [(0, Finished ex_slot); (0, Finished ex_plain)]).
  by vm_compute.
Defined.

(** The confirmation of the second of two printers fails. *)
Lemma confirmation_answer_unhandled_witness :
  pending ex_confirming_two !! 1 = Some (confirm_request ex_root ex_printer_b)
  ∧ ∃ w',
      deliver ex_root 1 (Errored ex_plain 203) ex_confirming_two = Some w'
      ∧ job w' = job ex_confirming_two
      ∧ emitted w' = emitted ex_confirming_two
      ∧ sent w' = sent ex_confirming_two
      ∧ pending w' = base.delete 1 (pending ex_confirming_two)
      ∧ uncaught w' = (uncaught ex_confirming_two ++ [TypeError])%list.
Proof.
  split; [by vm_compute|].
  apply (confirmation_answer_unhandled ex_root ex_confirming_two 1
           (confirm_request ex_root ex_printer_b) "printer-b" (Errored ex_plain 203)).
  - by vm_compute.
  - reflexivity.
  - reflexivity.
Defined.

(** ** Facts about the reported progress *)

Lemma length_values (d : gmap string string) : length (values d) = size d.
Proof. unfold values. by rewrite length_fmap, length_map_to_list. Qed.

Lemma still_uploading_le (d : gmap string string) : (still_uploading d ≤ size d)%nat.
Proof. unfold still_uploading. rewrite <- length_values. apply length_filter. Qed.

Lemma inject_Z_nonneg (n : nat) : (0 <= inject_Z (Z.of_nat n))%Q.
Proof. change 0%Q with (inject_Z 0). rewrite <- Zle_Qle. lia. Qed.

(** The fraction of resolved printers lies between 0 and 1. *)
Lemma resolved_fraction_bounds (total still : nat) :
  (still ≤ total)%nat →
  (0 <= inject_Z (Z.of_nat total - Z.of_nat still) / inject_Z (Z.of_nat total) <= 1)%Q.
Proof.
  intros Hle. split.
  - apply Qmult_le_0_compat.
    + change 0%Q with (inject_Z 0). rewrite <- Zle_Qle. lia.
    + apply Qinv_le_0_compat, inject_Z_nonneg.
  - destruct (decide (total = 0)) as [->|Hne].
    + assert (still = 0)%nat as -> by lia. by vm_compute.
    + apply Qle_shift_div_r.
      * change 0%Q with (inject_Z 0). rewrite <- Zlt_Qlt. lia.
      * rewrite Qmult_1_l, <- Zle_Qle. lia.
Qed.

(** What [onUploadConfirmed] reports lies between 0.8 and 1.8. *)
Lemma confirm_progress_bounds (d : gmap string string) :
  (8 # 10 <= confirm_progress d <= 18 # 10)%Q.
Proof.
  destruct (resolved_fraction_bounds (size d) (still_uploading d)
              (still_uploading_le d)) as [Hlo Hhi].
  unfold confirm_progress. split.
  - rewrite <- (Qplus_0_r (8 # 10)) at 1. by apply Qplus_le_r.
  - change (18 # 10)%Q with ((8 # 10) + 1)%Q. by apply Qplus_le_r.
Qed.

Lemma progress_values_app (w : World) (es : list Emission) :
  omap progress_of (emitted w ++ es)%list = (progress_values w ++ omap progress_of es)%list.
Proof. apply omap_app. Qed.

Lemma progress_values_reports (d : gmap string string) (l : list Q) :
  omap progress_of ((λ p, uploadProgressChanged (p * (8 # 10)) d) <$> l)
  = (λ p, (p * (8 # 10))%Q) <$> l.
Proof. induction l as [|p l IH]; [done|]. cbn. by rewrite IH. Qed.

(** ** Further properties of the job *)

Section Further.

Variables (root : string) (stacks : list ContainerStack) (fresh : string)
  (reports : list Q) (archive : list Byte.byte).

(** Every step of a started job is one of the four transitions. *)
Lemma step_transition (w w' : World) :
  invariant root stacks fresh archive w → step root w w' →
  transition root stacks archive w w'.
Proof.
  intros Hinv Hstep. destruct Hstep as [w i res w' (r & Hi & ->)%(deliver_Some root)].
  pose proof Hinv as [Hmeta Hname Hfile Hdom Hres Hund [p Hp]].
  destruct p; cbn in Hp.
  - destruct Hp as [(r0 & Hpending & Hcb & Hecb) Hquiet].
    rewrite Hpending in Hi. apply list_lookup_singleton_Some in Hi as [-> ->].
    destruct (fatal r res) eqn:Hfatal.
    + destruct (fatal_effect root r res (take_pending 0 w) Hfatal) as [lg ->].
      by eapply tr_aborted.
    + destruct (not_fatal_accepted r res Hcb Hecb Hfatal)
        as (reply & d & upload_url & id & -> & Hd & Hurl & Hid).
      unfold exec, resolve. rewrite Hcb. cbn [call].
      rewrite (onUploadRequestCompleted_accepted _ _ _ d upload_url id fresh archive)
        by done.
      cbn. rewrite Hpending. cbn.
      by apply (tr_accepted root stacks archive w r id upload_url).
  - destruct Hp as [(r0 & Hpending & Hcb & Hecb) Hquiet].
    rewrite Hpending in Hi. apply list_lookup_singleton_Some in Hi as [-> ->].
    destruct res as [reply|reply e].
    + unfold exec, resolve. rewrite Hcb. cbn [call].
      rewrite onUploadCompleted_effect. cbn. rewrite Hpending. cbn.
      by apply (tr_fanned_out root stacks archive w r).
    + assert (fatal r (Errored reply e) = true) as Hfatal
        by (cbn; by rewrite Hecb, bool_decide_eq_true_2).
      destruct (fatal_effect root r _ (take_pending 0 w) Hfatal) as [lg ->].
      by eapply tr_aborted.
  - destruct Hp as (cs & Hpending & Hsub).
    rewrite Hpending in Hi.
    apply list_lookup_fmap_Some in Hi as (c & -> & Hc).
    rewrite exec_resolve_confirm. by eapply tr_unhandled.
  - destruct Hp as (Hpending & _). by rewrite Hpending in Hi.
Qed.

(** An invariant of the transitions holds in every reachable state. *)
Lemma reachable_ind (P : World → Prop) :
  P (start root stacks fresh reports archive) →
  (∀ w w', reachable root stacks fresh reports archive w → P w →
           transition root stacks archive w w' → P w') →
  ∀ w, reachable root stacks fresh reports archive w → P w.
Proof.
  intros Hstart Hstep. unfold reachable. apply rtc_ind_r; [done|].
  intros w w' Hrtc Hs IH. eapply Hstep; [done..|].
  apply step_transition; [|done]. by eapply reachable_invariant.
Qed.

(** A transition leaves the status table as it is, or marks every printer
    ["failed"]. *)
Lemma transition_status (w w' : World) :
  transition root stacks archive w w' →
  status_of w' = status_of w ∨ status_of w' = (λ _, "failed") <$> status_of w.
Proof. intros [r res lg _ _ _|r id upload_url _ _ _|r _ _ _ _|i cs _ _]; auto. Qed.

(** Every status is one of the three strings. *)
Lemma reachable_is_status (w : World) k v :
  reachable root stacks fresh reports archive w →
  status_of w !! k = Some v → is_status v.
Proof.
  intros Hreach. revert w Hreach k v.
  apply (reachable_ind (λ w, ∀ k v, status_of w !! k = Some v → is_status v)).
  - rewrite start_effect. unfold status_of. cbn. intros k v Hk.
    left. by eapply initial_status_uploading.
  - intros w w' _ IH [Hst|Hst]%transition_status k v; rewrite Hst.
    + apply IH.
    + rewrite lookup_fmap. destruct (status_of w !! k); [|done].
      intros [= <-]. right. by right.
Qed.

(** X1. In every state the job can reach, the status table has exactly the
    printer ids found at the start as its keys, and every status is one of
    ["uploading"], ["success"] and ["failed"]. *)
Theorem status_table_shape (w : World) :
  reachable root stacks fresh reports archive w →
  dom (status_of w) = list_to_set (host_guid <$> stacks)
  ∧ ∀ k v, status_of w !! k = Some v → is_status v.
Proof.
  intros Hreach. split.
  - by apply (reachable_invariant _ _ _ _ _ _ Hreach).
  - intros k v. by apply reachable_is_status.
Qed.

(** What a transition emits: nothing, or the progress 1.0 and the completion
    notification of a fatal failure. *)
Lemma transition_emitted (w w' : World) :
  transition root stacks archive w w' →
  emitted w' = emitted w
  ∨ (quiet w
     ∧ ∃ status result error,
         emitted w' = (emitted w ++ [uploadProgressChanged 1 status;
                                     uploadCompleted result error])%list).
Proof.
  intros [r res lg _ Hq _|r id upload_url _ _ _|r _ _ _ _|i cs _ _]; auto.
  right. split; [done|]. by eexists _, _, _.
Qed.

Lemma transition_progress (w w' : World) :
  transition root stacks archive w w' →
  progress_values w' = progress_values w
  ∨ progress_values w' = (progress_values w ++ [1%Q])%list.
Proof.
  intros [He|(_ & status & result & error & He)]%transition_emitted;
    unfold progress_values; rewrite He; [by left|right].
  by rewrite progress_values_app.
Qed.

Lemma progress_le_one (w : World) :
  Forall (λ p, (p <= 1)%Q) reports →
  reachable root stacks fresh reports archive w →
  Forall (λ p, (p <= 1)%Q) (progress_values w).
Proof.
  intros Hle Hreach. revert w Hreach.
  apply (reachable_ind (λ w, Forall (λ p, (p <= 1)%Q) (progress_values w))).
  - rewrite start_effect. unfold progress_values. cbn.
    rewrite progress_values_reports. apply Forall_fmap.
    eapply Forall_impl; [exact Hle|]. intros p Hp. cbn.
    apply (Qle_trans _ (1 * (8 # 10))); [by apply Qmult_le_compat_r|done].
  - intros w w' _ IH [->| ->]%transition_progress; [done|].
    apply Forall_app. split; [done|]. repeat constructor. apply Qle_refl.
Qed.

Lemma progress_nonneg (w : World) :
  Forall (λ p, (0 <= p)%Q) reports →
  reachable root stacks fresh reports archive w →
  Forall (λ p, (0 <= p)%Q) (progress_values w).
Proof.
  intros Hle Hreach. revert w Hreach.
  apply (reachable_ind (λ w, Forall (λ p, (0 <= p)%Q) (progress_values w))).
  - rewrite start_effect. unfold progress_values. cbn.
    rewrite progress_values_reports. apply Forall_fmap.
    eapply Forall_impl; [exact Hle|]. intros p Hp. cbn.
    by apply Qmult_le_0_compat.
  - intros w w' _ IH [->| ->]%transition_progress; [done|].
    apply Forall_app. split; [done|]. by repeat constructor.
Qed.

Lemma progress_sorted (w : World) :
  StronglySorted Qle reports →
  Forall (λ p, (p <= 1)%Q) reports →
  reachable root stacks fresh reports archive w →
  StronglySorted Qle (progress_values w).
Proof.
  intros Hsorted Hle Hreach. revert w Hreach.
  apply (reachable_ind (λ w, StronglySorted Qle (progress_values w))).
  - rewrite start_effect. unfold progress_values. cbn.
    rewrite progress_values_reports.
    apply (StronglySorted_fmap _ Qle Qle); [|done].
    intros x y Hxy. by apply Qmult_le_compat_r.
  - intros w w' Hreach IH [->| ->]%transition_progress; [done|].
    apply StronglySorted_app_2; [|done|repeat constructor].
    intros x1 x2 Hx1 ->%list_elem_of_singleton.
    pose proof (progress_le_one w Hle Hreach) as Hone.
    rewrite Forall_forall in Hone. by apply Hone.
Qed.

(** X4. When the exporter's reports do not decrease and do not exceed 1, the
    progress values the job emits never decrease, through all three phases
    and on every failure path. *)
Theorem progress_never_decreases (w : World) :
  StronglySorted Qle reports →
  Forall (λ p, (p <= 1)%Q) reports →
  reachable root stacks fresh reports archive w →
  StronglySorted Qle (progress_values w).
Proof. apply progress_sorted. Qed.

(** X5. When the exporter's reports lie between 0 and 1, every progress
    value the job emits lies between 0 and 1.8. *)
Theorem progress_bounds (w : World) :
  Forall (λ p, (0 <= p <= 1)%Q) reports →
  reachable root stacks fresh reports archive w →
  Forall (λ p, (0 <= p <= 18 # 10)%Q) (progress_values w).
Proof.
  intros Hreports Hreach.
  assert (Forall (λ p, (0 <= p)%Q) (progress_values w)) as Hlo.
  { apply progress_nonneg; [|done]. eapply Forall_impl; [exact Hreports|]. by intros p []. }
  assert (Forall (λ p, (p <= 1)%Q) (progress_values w)) as Hhi.
  { apply progress_le_one; [|done]. eapply Forall_impl; [exact Hreports|]. by intros p []. }
  rewrite Forall_forall in Hlo, Hhi. apply Forall_forall. intros p Hp. split.
  - by apply Hlo.
  - eapply Qle_trans; [by apply Hhi|done].
Qed.





Lemma stage_aborted_quiet (w : World) r res lg :
  quiet w → pending w = [r] →
  (sent w = [upload_request root (length archive)]
   ∨ ∃ upload_url, sent w = [upload_request root (length archive);
                             upload_put upload_url archive]) →
  stage root stacks archive (aborted (fatal_error res) lg (take_pending 0 w)).
Proof.
  intros [Hcompl _ _ _ Hunc _] Hpending Hsent.
  apply (stage_aborted _ _ _ _ (fatal_error res)); cbn; try done.
  - by rewrite Hpending.
  - unfold completions. cbn. by rewrite completions_app, Hcompl.
  - apply fatal_error_nonempty.
Qed.

Lemma stage_step (w w' : World) :
  reachable root stacks fresh reports archive w →
  stage root stacks archive w → step root w w' →
  stage root stacks archive w'.
Proof.
  intros Hreach Hstage Hstep.
  pose proof (reachable_invariant _ _ _ _ _ _ Hreach) as Hinv.
  pose proof Hinv as [Hmeta Hname Hfile Hdom _ Hund _].
  destruct Hstep as [w i res w' (r & Hi & ->)%(deliver_Some root)].
  destruct Hstage as [Hpending Hsent Hid Hquiet|upload_url id Hpending Hsent Hid Hquiet
                     |upload_url id cs Hpending Hsent Hid Hunf Hexn Hlen
                     |error Hpending _ _ _ _ _ _].
  - (* the upload request is answered *)
    rewrite Hpending in Hi. apply list_lookup_singleton_Some in Hi as [-> <-].
    destruct (fatal (upload_request root (length archive)) res) eqn:Hfatal.
    + destruct (fatal_effect root _ res (take_pending 0 w) Hfatal) as [lg ->].
      eapply stage_aborted_quiet; [done..|by left].
    + destruct (not_fatal_accepted (upload_request root (length archive)) res
                  eq_refl eq_refl Hfatal)
        as (reply & d & upload_url & id & -> & Hd & Hurl & Hid').
      unfold exec, resolve. cbn [callback upload_request call].
      rewrite (onUploadRequestCompleted_accepted _ _ _ d upload_url id fresh archive)
        by done.
      destruct Hquiet as [Hcompl Hconf Hr He Hu Hst].
      apply (stage_uploading _ _ _ _ upload_url id); cbn; try done.
      * by rewrite Hpending.
      * by rewrite Hsent.
      * split; cbn; try done. by rewrite confirmations_app, Hconf.
  - (* the upload is answered *)
    rewrite Hpending in Hi. apply list_lookup_singleton_Some in Hi as [-> <-].
    destruct res as [reply|reply e].
    + unfold exec, resolve. cbn [callback upload_put call].
      rewrite onUploadCompleted_effect.
      destruct Hquiet as [Hcompl Hconf Hr He Hu Hst].
      apply (stage_confirming _ _ _ _ upload_url id stacks); cbn; try done.
      * by rewrite Hpending, Hmeta.
      * by rewrite Hsent, Hmeta.
      * by rewrite Hu.
      * by rewrite Hu.
    + destruct (fatal_effect root (upload_put upload_url archive) (Errored reply e)
                  (take_pending 0 w) eq_refl) as [lg ->].
      eapply stage_aborted_quiet; [done..|right; by eexists].
  - (* a confirmation is answered *)
    rewrite Hpending in Hi.
    apply list_lookup_fmap_Some in Hi as (c & -> & Hc).
    rewrite exec_resolve_confirm.
    apply (stage_confirming _ _ _ _ upload_url id (base.delete i cs)); cbn; try done.
    + by rewrite Hpending, list_fmap_delete.
    + by destruct Hunf.
    + apply Forall_app. split; [done|]. by repeat constructor.
    + rewrite length_app, length_delete by eauto. cbn.
      assert (length cs ≠ 0)%nat by (destruct cs; [done|cbn; lia]). lia.
  - by rewrite Hpending in Hi.
Qed.

Lemma reachable_stage (w : World) :
  reachable root stacks fresh reports archive w → stage root stacks archive w.
Proof.
  unfold reachable. revert w. apply rtc_ind_r.
  - rewrite start_effect. apply stage_requesting; cbn; try done.
    split; cbn; try done.
    + apply filter_completion_reports.
    + apply initial_status_uploading.
  - intros w w' Hrtc Hstep IH. by eapply stage_step.
Qed.

Lemma confirm_requests_NoDup (l : list ContainerStack) :
  NoDup (host_guid <$> l) → NoDup (confirm_request root <$> l).
Proof.
  intros Hnd. apply (NoDup_fmap_1 callback).
  rewrite <- list_fmap_compose.
  assert (callback ∘ confirm_request root = cb_onUploadConfirmed ∘ host_guid) as ->
    by done.
  rewrite list_fmap_compose. apply NoDup_fmap_2; [|done].
  by intros x y [= ->].
Qed.

(** X6. The requests a job has sent are always a beginning of this list:
    the upload request announcing the size of the exported archive, the
    upload of exactly that archive, then one confirmation per entry of the
    registry's list, in its order.  No confirmation is sent before the
    upload request and the upload, and with distinct printer ids no request
    is sent twice. *)
Theorem requests_in_phase_order (w : World) :
  reachable root stacks fresh reports archive w →
  (sent w = [upload_request root (length archive)]
   ∨ (∃ upload_url,
        sent w = [upload_request root (length archive); upload_put upload_url archive])
   ∨ (∃ upload_url,
        sent w = ([upload_request root (length archive); upload_put upload_url archive]
                  ++ (confirm_request root <$> stacks))%list))
  ∧ (NoDup (host_guid <$> stacks) → NoDup (sent w)).
Proof.
  intros Hreach.
  assert (sent w = [upload_request root (length archive)]
   ∨ (∃ upload_url,
        sent w = [upload_request root (length archive); upload_put upload_url archive])
   ∨ (∃ upload_url,
        sent w = ([upload_request root (length archive); upload_put upload_url archive]
                  ++ (confirm_request root <$> stacks))%list)) as Hshape.
  { destruct (reachable_stage w Hreach)
      as [_ Hsent _ _|upload_url id _ Hsent _ _|upload_url id cs _ Hsent _ _ _ _
         |error _ [Hsent|[upload_url Hsent]] _ _ _ _ _].
    - by left.
    - right. left. by eexists.
    - right. right. by eexists.
    - by left.
    - right. left. by eexists. }
  split; [done|]. intros Hnd.
  destruct Hshape as [->|[[upload_url ->]|[upload_url ->]]].
  - apply NoDup_singleton.
  - apply NoDup_cons. split; [|apply NoDup_singleton].
    by intros Heq%list_elem_of_singleton%(f_equal callback).
  - apply NoDup_cons. split.
    + intros [Heq|(c & Heq & _)%list_elem_of_fmap]%elem_of_cons;
        by apply (f_equal callback) in Heq.
    + apply NoDup_cons. split; [|by apply confirm_requests_NoDup].
      intros (c & Heq & _)%list_elem_of_fmap. by apply (f_equal callback) in Heq.
Qed.

(** X8. The job emits the completion notification at most once, and a
    completion it emits carries the result FAILED and a non-empty message:
    as the code stands, no job reports success. *)
Theorem at_most_one_completion (w : World) :
  reachable root stacks fresh reports archive w →
  completions w = []
  ∨ ∃ error, error ≠ ""
      ∧ completions w = [uploadCompleted (Some Result.FAILED) (Some error)]
      ∧ _result (job w) = Some Result.FAILED
      ∧ _error (job w) = Some error.
Proof.
  intros [_ _ _ Hquiet|upload_url id _ _ _ Hquiet|upload_url id cs _ _ _ Hunf _ _
         |error _ _ Hcompl Herror Hr He _]%reachable_stage.
  - left. apply Hquiet.
  - left. apply Hquiet.
  - left. apply Hunf.
  - right. by exists error.
Qed.

(** X9. Once the confirmations have been sent the job never finishes: in
    every later state each printer is still ["uploading"], the job has no
    result, no error and no completion notification, and every confirmation
    answered so far has raised a [TypeError] and nothing else. *)
Theorem confirmations_never_finalize (w : World) :
  reachable root stacks fresh reports archive w →
  confirmations w ≠ [] →
  (∀ k v, status_of w !! k = Some v → v = "uploading")
  ∧ _result (job w) = None ∧ _error (job w) = None ∧ completions w = []
  ∧ Forall (λ e, e = TypeError) (uncaught w)
  ∧ (length (uncaught w) + length (pending w) = length stacks)%nat.
Proof.
  intros [_ Hsent _ _|upload_url id _ Hsent _ _|upload_url id cs Hpending _ _ Hunf Hexn Hlen
         |error _ [Hsent|[upload_url Hsent]] _ _ _ _ _]%reachable_stage Hconf;
    try (by unfold confirmations in Hconf; rewrite Hsent in Hconf).
  destruct Hunf as [Hcompl Hr He Hst].
  by rewrite Hpending, length_fmap.
Qed.

Lemma confirmations_fmap (l : list ContainerStack) :
  List.filter is_confirmation (confirm_request root <$> l) = confirm_request root <$> l.
Proof. induction l as [|c l IH]; [done|]. cbn. by rewrite IH. Qed.

(** X10. When the upload finishes, one confirmation request per printer is
    sent, in the order of the registry and each to the URL of its cluster
    and printer; these are then the requests in flight, nothing is emitted
    and the job object is unchanged. *)
Theorem upload_completed_fans_out (w : World) i r reply :
  reachable root stacks fresh reports archive w →
  pending w !! i = Some r → callback r = cb_onUploadCompleted →
  ∃ w',
    deliver root i (Finished reply) w = Some w'
    ∧ pending w' = confirm_request root <$> stacks
    ∧ sent w' = (sent w ++ (confirm_request root <$> stacks))%list
    ∧ confirmations w' = confirm_request root <$> stacks
    ∧ emitted w' = emitted w
    ∧ job w' = job w.
Proof.
  intros Hreach Hi Hcb.
  pose proof (reachable_invariant _ _ _ _ _ _ Hreach) as [Hmeta _ _ _ _ _ _].
  eexists. split; [unfold deliver; rewrite Hi; reflexivity|].
  destruct (reachable_stage w Hreach)
    as [Hpending _ _ _|upload_url id Hpending Hsent _ Hquiet|upload_url id cs Hpending _ _ _ _ _
       |error Hpending _ _ _ _ _ _]; rewrite Hpending in Hi.
  - apply list_lookup_singleton_Some in Hi as [_ <-]. done.
  - apply list_lookup_singleton_Some in Hi as [-> <-].
    unfold exec, resolve. cbn [callback upload_put call].
    rewrite onUploadCompleted_effect. cbn. rewrite Hpending, Hmeta. cbn.
    repeat split. unfold confirmations. cbn.
    by rewrite confirmations_app, (quiet_confirmations _ Hquiet), confirmations_fmap.
  - apply list_lookup_fmap_Some in Hi as (c & -> & _). done.
  - done.
Qed.

(** X11. Without any printer, a job whose upload finishes is left idle for
    good: nothing is in flight, and it has no result, no error and no
    completion notification, in that state and in every later one. *)
Theorem no_printers_never_completes (w : World) i r reply :
  stacks = [] →
  reachable root stacks fresh reports archive w →
  pending w !! i = Some r → callback r = cb_onUploadCompleted →
  ∃ w',
    deliver root i (Finished reply) w = Some w'
    ∧ ∀ w'', rtc (step root) w' w'' →
        pending w'' = [] ∧ _result (job w'') = None ∧ _error (job w'') = None
        ∧ completions w'' = [].
Proof.
  intros Hnone Hreach Hi Hcb.
  pose proof (reachable_invariant _ _ _ _ _ _ Hreach) as [Hmeta _ _ _ _ _ _].
  eexists. split; [unfold deliver; rewrite Hi; reflexivity|].
  destruct (reachable_stage w Hreach)
    as [Hpending _ _ _|upload_url id Hpending Hsent _ Hquiet|upload_url id cs Hpending _ _ _ _ _
       |error Hpending _ _ _ _ _ _]; rewrite Hpending in Hi.
  - apply list_lookup_singleton_Some in Hi as [_ <-]. done.
  - apply list_lookup_singleton_Some in Hi as [-> <-].
    unfold exec, resolve. cbn [callback upload_put call].
    rewrite onUploadCompleted_effect.
    assert (∀ w0 : World, pending w0 = [] → ∀ w'', rtc (step root) w0 w'' → w'' = w0)
      as Hfinal by (intros w0 ? w'' ?; by apply (idle_final root w0 w'')).
    intros w'' ->%Hfinal; cbn; rewrite Hpending, Hmeta, Hnone; [|done].
    destruct Hquiet as [Hcompl _ Hr He _ _]. by rewrite app_nil_r.
  - apply list_lookup_fmap_Some in Hi as (c & -> & _). done.
  - done.
Qed.

(** X12. A usable answer to the upload request: the job keeps the archive
    id the server assigned and uploads, to the URL it was given, exactly the
    bytes the exporter wrote, with [onError] as error callback; nothing is
    emitted and no status changes. *)
Theorem accepted_response_uploads_archive (w : World) i r reply d upload_url id :
  reachable root stacks fresh reports archive w →
  pending w !! i = Some r → callback r = cb_onUploadRequestCompleted →
  readJSON reply = Some d →
  d !! "upload_url" = Some upload_url →
  d !! "material_profile_id" = Some id →
  ∃ w',
    deliver root i (Finished reply) w = Some w'
    ∧ _archive_remote_id (job w') = Some id
    ∧ pending w' = [upload_put upload_url archive]
    ∧ emitted w' = emitted w
    ∧ status_of w' = status_of w
    ∧ _result (job w') = None ∧ _error (job w') = None.
Proof.
  intros Hreach Hi Hcb Hd Hurl Hid.
  pose proof (reachable_invariant _ _ _ _ _ _ Hreach) as [_ Hname Hfile _ _ _ _].
  eexists. split; [unfold deliver; rewrite Hi; reflexivity|].
  destruct (reachable_stage w Hreach)
    as [Hpending _ _ Hquiet|upload_url' id' Hpending _ _ _|upload_url' id' cs Hpending _ _ _ _ _
       |error Hpending _ _ _ _ _ _]; rewrite Hpending in Hi.
  - apply list_lookup_singleton_Some in Hi as [-> <-].
    unfold exec, resolve. cbn [callback upload_request call].
    rewrite (onUploadRequestCompleted_accepted _ _ _ d upload_url id fresh archive)
      by done.
    cbn. rewrite Hpending. destruct Hquiet as [_ _ Hr He _ _]. done.
  - apply list_lookup_singleton_Some in Hi as [_ <-]. done.
  - apply list_lookup_fmap_Some in Hi as (c & -> & _). done.
  - done.
Qed.

End Further.

(** X13. What [run] leaves behind, for any list of printers: it returns
    normally; every printer found is marked ["uploading"]; the archive file
    exists with what the exporter wrote; each report [p] of the exporter was
    emitted as progress [p * 0.8]; and the one request in flight is the
    upload request, announcing the size of that file. *)
Theorem run_outcome (root : string) (stacks : list ContainerStack) (fresh : string)
    (reports : list Q) (archive : list Byte.byte) :
  let w := start root stacks fresh reports archive in
  uncaught w = []
  ∧ (∀ c, c ∈ stacks → status_of w !! host_guid c = Some "uploading")
  ∧ files w !! fresh = Some archive
  ∧ progress_values w = (λ p, (p * (8 # 10))%Q) <$> reports
  ∧ completions w = []
  ∧ pending w = [upload_request root (length archive)]
  ∧ data (upload_request root (length archive))
    = JsonBody (length archive) "cura.umm" "application/zip" "cura".
Proof.
  cbv zeta. rewrite start_effect. unfold progress_values, completions, status_of. cbn.
  split; [done|]. split.
  - intros c Hc.
    assert (host_guid c ∈ dom (initial_status stacks)) as [v Hv]%elem_of_dom.
    { rewrite initial_status_dom. apply elem_of_list_to_set. by apply list_elem_of_fmap_2. }
    by rewrite Hv, (initial_status_uploading _ _ _ Hv).
  - split; [apply lookup_insert_eq|].
    split; [apply progress_values_reports|].
    split; [apply filter_completion_reports|done].
Qed.

(** X17. The confirmation handler, run on its own.  It records the printer
    as ["failed"] when the answer is an error and as ["success"] otherwise,
    sends nothing, and always reports a progress between 0.8 and 1.8, which
    is 1.8 when no printer is left ["uploading"].  While a printer is still
    ["uploading"] it decides nothing.  When none is and some printer failed
    it finishes with the result FAILED and the partial-failure message.  When
    none is and no printer failed it sets no result and emits no completion,
    and raises [AttributeError] for the name ["SUCCESS"] instead. *)
Theorem onUploadConfirmed_contract (w : World) printer_id reply error :
  let w' := exec (onUploadConfirmed printer_id reply error) w in
  let d := status_of w' in
  d = <[printer_id := match error with Some _ => "failed" | None => "success" end]>
        (status_of w)
  ∧ pending w' = pending w ∧ sent w' = sent w ∧ files w' = files w
  ∧ (8 # 10 <= confirm_progress d <= 18 # 10)%Q
  ∧ (still_uploading d = 0%nat → (confirm_progress d == 18 # 10)%Q)
  ∧ (still_uploading d ≠ 0%nat →
       emitted w' = (emitted w ++ [uploadProgressChanged (confirm_progress d) d])%list
       ∧ _result (job w') = _result (job w) ∧ _error (job w') = _error (job w)
       ∧ uncaught w' = uncaught w)
  ∧ (still_uploading d = 0%nat → "failed" ∈ values d →
       emitted w' = (emitted w ++ [uploadProgressChanged (confirm_progress d) d;
                                   uploadCompleted (Some Result.FAILED)
                                     (Some partial_failure)])%list
       ∧ _result (job w') = Some Result.FAILED
       ∧ _error (job w') = Some partial_failure
       ∧ uncaught w' = uncaught w)
  ∧ (still_uploading d = 0%nat → "failed" ∉ values d →
       emitted w' = (emitted w ++ [uploadProgressChanged (confirm_progress d) d])%list
       ∧ _result (job w') = _result (job w) ∧ _error (job w') = _error (job w)
       ∧ uncaught w' = (uncaught w ++ [AttributeError "SUCCESS"])%list).
Proof.
  cbv zeta.
  assert (∀ d : gmap string string,
            d = confirmed_status printer_id error (status_of w) → size d ≠ 0%nat)
    as Hsize.
  { intros d -> Hz. apply map_size_empty_inv in Hz.
    unfold confirmed_status in Hz. by apply insert_non_empty in Hz. }
  destruct (exec_onUploadConfirmed printer_id reply error w) as [Hnz|Hz Hf|Hz Hf];
    unfold status_of in *; cbn;
    (split; [done|]); (split; [done|]); (split; [done|]); (split; [done|]);
    (split; [apply confirm_progress_bounds|]);
    (split; [intros Hz'; apply confirm_progress_all_resolved; [by apply Hsize|done]|]).
  - split; [done|]. split; intros Hz'; by rewrite Hz' in Hnz.
  - split; [intros Hnz; by rewrite Hz in Hnz|]. split; [|done].
    intros _ _. by rewrite <- app_assoc.
  - split; [intros Hnz; by rewrite Hz in Hnz|]. split; [done|]. done.
Qed.

(** ** The further properties at work on the example jobs *)

Lemma ex_aborted_reachable :
  reachable ex_root [ex_printer_a] "/tmp/tmpk3v9" [(1 # 2)%Q; 1%Q] ex_archive ex_aborted.
Proof.
  apply (deliver_all_rtc _ [(0, Errored ex_plain 203)]). by vm_compute.
Defined.

Lemma ex_answered_reachable :
  reachable ex_root [ex_printer_a] "/tmp/tmpk3v9" [(1 # 2)%Q; 1%Q] ex_archive ex_answered.
Proof.
  apply (deliver_all_rtc _ [(0, Finished ex_slot); (0, Finished ex_plain);
                            (0, Finished ex_plain)]).
  by vm_compute.
Defined.

Lemma ex_answered_two_reachable :
  reachable ex_root [ex_printer_a; ex_printer_b] "/tmp/tmpk3v9" [] ex_archive
    ex_answered_two.
Proof.
  apply (deliver_all_rtc _ [(0, Finished ex_slot); (0, Finished ex_plain);
                            (1, Errored ex_plain 203); (0, Finished ex_plain)]).
  by vm_compute.
Defined.

Lemma ex_two_NoDup : NoDup (host_guid <$> [ex_printer_a; ex_printer_b]).
Proof. apply (bool_decide_unpack _). by vm_compute. Defined.


Lemma status_table_shape_witness :
  dom (status_of ex_confirming) = list_to_set (host_guid <$> [ex_printer_a])
  ∧ ∀ k v, status_of ex_confirming !! k = Some v → is_status v.
Proof.
  apply (status_table_shape ex_root [ex_printer_a] "/tmp/tmpk3v9"
           [(1 # 2)%Q; 1%Q] ex_archive ex_confirming).
  apply (deliver_all_rtc _ [(0, Finished ex_slot); (0, Finished ex_plain)]).
  by vm_compute.
Defined.

Lemma progress_never_decreases_witness :
  StronglySorted Qle [(1 # 2)%Q; 1%Q]
  ∧ Forall (λ p, (p <= 1)%Q) [(1 # 2)%Q; 1%Q]
  ∧ StronglySorted Qle (progress_values ex_answered).
Proof.
  assert (StronglySorted Qle [(1 # 2)%Q; 1%Q]) as Hsorted
    by (repeat constructor; by vm_compute).
  assert (Forall (λ p, (p <= 1)%Q) [(1 # 2)%Q; 1%Q]) as Hle
    by (repeat constructor; by vm_compute).
  split; [exact Hsorted|]. split; [exact Hle|].
  exact (progress_never_decreases ex_root [ex_printer_a] "/tmp/tmpk3v9"
           [(1 # 2)%Q; 1%Q] ex_archive ex_answered Hsorted Hle ex_answered_reachable).
Defined.

Lemma progress_bounds_witness :
  Forall (λ p, (0 <= p <= 1)%Q) [(1 # 2)%Q; 1%Q]
  ∧ Forall (λ p, (0 <= p <= 18 # 10)%Q) (progress_values ex_answered).
Proof.
  assert (Forall (λ p, (0 <= p <= 1)%Q) [(1 # 2)%Q; 1%Q]) as Hreports
    by (repeat constructor; by vm_compute).
  split; [exact Hreports|].
  exact (progress_bounds ex_root [ex_printer_a] "/tmp/tmpk3v9"
           [(1 # 2)%Q; 1%Q] ex_archive ex_answered Hreports ex_answered_reachable).
Defined.

Lemma requests_in_phase_order_witness :
  NoDup (host_guid <$> [ex_printer_a; ex_printer_b])
  ∧ sent ex_answered_two
    = ([upload_request ex_root (length ex_archive);
        upload_put "https://upload.example/slot" ex_archive]
       ++ (confirm_request ex_root <$> [ex_printer_a; ex_printer_b]))%list
  ∧ NoDup (sent ex_answered_two).
Proof.
  split; [exact ex_two_NoDup|]. split; [by vm_compute|].
  exact (proj2 (requests_in_phase_order ex_root [ex_printer_a; ex_printer_b]
                  "/tmp/tmpk3v9" [] ex_archive ex_answered_two
                  ex_answered_two_reachable) ex_two_NoDup).
Defined.

Lemma at_most_one_completion_witness :
  completions ex_aborted ≠ []
  ∧ (completions ex_aborted = []
     ∨ ∃ error, error ≠ ""
         ∧ completions ex_aborted = [uploadCompleted (Some Result.FAILED) (Some error)]
         ∧ _result (job ex_aborted) = Some Result.FAILED
         ∧ _error (job ex_aborted) = Some error).
Proof.
  split; [by vm_compute|].
  exact (at_most_one_completion ex_root [ex_printer_a] "/tmp/tmpk3v9"
           [(1 # 2)%Q; 1%Q] ex_archive ex_aborted ex_aborted_reachable).
Defined.

Lemma confirmations_never_finalize_witness :
  confirmations ex_answered_two ≠ [] ∧ pending ex_answered_two = []
  ∧ (∀ k v, status_of ex_answered_two !! k = Some v → v = "uploading")
  ∧ _result (job ex_answered_two) = None ∧ _error (job ex_answered_two) = None
  ∧ completions ex_answered_two = []
  ∧ Forall (λ e, e = TypeError) (uncaught ex_answered_two)
  ∧ (length (uncaught ex_answered_two) + length (pending ex_answered_two)
     = length [ex_printer_a; ex_printer_b])%nat.
Proof.
  assert (confirmations ex_answered_two ≠ []) as Hconf by (by vm_compute).
  split; [exact Hconf|]. split; [by vm_compute|].
  exact (confirmations_never_finalize ex_root [ex_printer_a; ex_printer_b]
           "/tmp/tmpk3v9" [] ex_archive ex_answered_two
           ex_answered_two_reachable Hconf).
Defined.

Lemma upload_completed_fans_out_witness :
  pending ex_uploading !! 0 = Some (upload_put "https://upload.example/slot" ex_archive)
  ∧ ∃ w',
      deliver ex_root 0 (Finished ex_plain) ex_uploading = Some w'
      ∧ pending w' = confirm_request ex_root <$> [ex_printer_a]
      ∧ sent w' = (sent ex_uploading ++ (confirm_request ex_root <$> [ex_printer_a]))%list
      ∧ confirmations w' = confirm_request ex_root <$> [ex_printer_a]
      ∧ emitted w' = emitted ex_uploading
      ∧ job w' = job ex_uploading.
Proof.
  split; [by vm_compute|].
  apply (upload_completed_fans_out ex_root [ex_printer_a] "/tmp/tmpk3v9"
           [(1 # 2)%Q; 1%Q] ex_archive ex_uploading 0
           (upload_put "https://upload.example/slot" ex_archive) ex_plain).
  - apply (deliver_all_rtc _ [(0, Finished ex_slot)]). by vm_compute.
  - by vm_compute.
  - reflexivity.
Defined.

Lemma no_printers_never_completes_witness :
  pending ex_uploading_none !! 0
  = Some (upload_put "https://upload.example/slot" ex_archive)
  ∧ ∃ w',
      deliver ex_root 0 (Finished ex_plain) ex_uploading_none = Some w'
      ∧ ∀ w'', rtc (step ex_root) w' w'' →
          pending w'' = [] ∧ _result (job w'') = None ∧ _error (job w'') = None
          ∧ completions w'' = [].
Proof.
  split; [by vm_compute|].
  apply (no_printers_never_completes ex_root [] "/tmp/tmpk3v9" [] ex_archive
           ex_uploading_none 0 (upload_put "https://upload.example/slot" ex_archive)
           ex_plain).
  - reflexivity.
  - apply (deliver_all_rtc _ [(0, Finished ex_slot)]). by vm_compute.
  - by vm_compute.
  - reflexivity.
Defined.

Lemma accepted_response_uploads_archive_witness :
  pending ex_started !! 0 = Some (upload_request ex_root 2)
  ∧ ∃ w',
      deliver ex_root 0 (Finished ex_slot) ex_started = Some w'
      ∧ _archive_remote_id (job w') = Some "profile-1"
      ∧ pending w' = [upload_put "https://upload.example/slot" ex_archive]
      ∧ emitted w' = emitted ex_started
      ∧ status_of w' = status_of ex_started
      ∧ _result (job w') = None ∧ _error (job w') = None.
Proof.
  split; [by vm_compute|].
  apply (accepted_response_uploads_archive ex_root [ex_printer_a] "/tmp/tmpk3v9"
           [(1 # 2)%Q; 1%Q] ex_archive ex_started 0 (upload_request ex_root 2) ex_slot
           (<["upload_url" := "https://upload.example/slot"]>
              (<["material_profile_id" := "profile-1"]> ∅))
           "https://upload.example/slot" "profile-1").
  - apply rtc_refl.
  - by vm_compute.
  - reflexivity.
  - reflexivity.
  - by vm_compute.
  - by vm_compute.
Defined.

Lemma onUploadConfirmed_contract_witness :
  let w := take_pending 0 ex_confirming in
  let w' := exec (onUploadConfirmed "printer-a" ex_plain (Some 203)) w in
  still_uploading (status_of w') = 0%nat
  ∧ "failed" ∈ values (status_of w')
  ∧ emitted w'
    = (emitted w ++ [uploadProgressChanged (confirm_progress (status_of w')) (status_of w');
                     uploadCompleted (Some Result.FAILED) (Some partial_failure)])%list
  ∧ _result (job w') = Some Result.FAILED
  ∧ _error (job w') = Some partial_failure
  ∧ uncaught w' = uncaught w.
Proof.
  cbv zeta.
  assert (still_uploading
            (status_of (exec (onUploadConfirmed "printer-a" ex_plain (Some 203))
                          (take_pending 0 ex_confirming))) = 0%nat) as Hz
    by (by vm_compute).
  assert ("failed" ∈ values
            (status_of (exec (onUploadConfirmed "printer-a" ex_plain (Some 203))
                          (take_pending 0 ex_confirming)))) as Hf
    by (vm_compute; left).
  split; [exact Hz|]. split; [exact Hf|].
  exact (proj1 (proj2 (proj2 (proj2 (proj2 (proj2 (proj2 (proj2
           (onUploadConfirmed_contract (take_pending 0 ex_confirming)
              "printer-a" ex_plain (Some 203))))))))) Hz Hf).
Defined.
